(** * F1 championship standings scraper: a shallow embedding of scraper.py

    Part I gives the definitions, in the order of the source file: the
    character tables of the interpreter's [str] type, the helpers
    ([clean_int], [lookup_driver], [detect_columns]), the parsed document
    that [BeautifulSoup] hands to [fetch_standings], the row loop, the
    fallback builder and [main]; then the vocabulary of the statements and
    a few sample pages. Part II gives the lemmas and theorems.

    Conventions.
    - A Python [str] is a [string] whose characters are the code points
      0..255 (the Latin-1 block); each character table below is the
      interpreter's table restricted to that block.
    - A Python [int] is a [Z]; a position produced by [enumerate] is a
      [nat].
    - A Python [dict] with string keys is a [gmap string _].
    - An exception that the source does not catch is a [Raise] result.
    - Logging takes no part in the data flow and is left out. *)

From Stdlib Require Import ZArith Ascii String DecimalString DecimalPos.
From stdpp Require Import gmap strings list.

Local Open Scope string_scope.
Local Open Scope Z_scope.
Local Open Scope list_scope.

(** * Part I: definitions *)

(** ** Results of computations that may raise *)

Inductive exn := ValueError.

Inductive result (A : Type) :=
| Ok (a : A)
| Raise (e : exn).
Arguments Ok {A} a.
Arguments Raise {A} e.

Definition bind {A B} (r : result A) (k : A -> result B) : result B :=
  match r with
  | Ok a => k a
  | Raise e => Raise e
  end.

Notation "'let*' x ':=' r 'in' k" := (bind r (fun x => k))
  (at level 10, x name, r at level 200, k at level 200).

(** ** Characters and the [str] methods the scraper calls *)

Module Str.

Definition code (c : ascii) : nat := nat_of_ascii c.

Definition between (lo hi n : nat) : bool := (lo <=? n)%nat && (n <=? hi)%nat.

(** [c.isdecimal()]: below code point 256 only the ASCII digits. *)
Definition isdecimal (c : ascii) : bool := between 48 57 (code c).

(** [c.isdigit()]: the decimal digits and the superscripts two and three
    (U+00B2, U+00B3) and one (U+00B9). *)
Definition isdigit (c : ascii) : bool :=
  isdecimal c || (code c =? 178)%nat || (code c =? 179)%nat || (code c =? 185)%nat.

(** [c.isspace()], the set that [strip()] and [split()] work with:
    U+0009..U+000D, U+001C..U+0020, U+0085 and U+00A0. *)
Definition isspace (c : ascii) : bool :=
  between 9 13 (code c) || between 28 32 (code c)
  || (code c =? 133)%nat || (code c =? 160)%nat.

(** Upper-case letters: A-Z and U+00C0..U+00DE without the multiplication
    sign U+00D7. *)
Definition isupper_char (c : ascii) : bool :=
  between 65 90 (code c)
  || (between 192 222 (code c) && negb (code c =? 215)%nat).

(** Lower-case letters: a-z, the ordinal indicators U+00AA and U+00BA, the
    micro sign U+00B5, and U+00DF..U+00FF without the division sign
    U+00F7. *)
Definition islower_char (c : ascii) : bool :=
  between 97 122 (code c)
  || (code c =? 170)%nat || (code c =? 181)%nat || (code c =? 186)%nat
  || (between 223 255 (code c) && negb (code c =? 247)%nat).

(** The lower-case form of an upper-case letter lies 32 code points up. *)
Definition lower_char (c : ascii) : ascii :=
  if isupper_char c then ascii_of_nat (code c + 32) else c.

Fixpoint map (f : ascii -> ascii) (s : string) : string :=
  match s with
  | EmptyString => EmptyString
  | String c t => String (f c) (map f t)
  end.

Fixpoint filter (p : ascii -> bool) (s : string) : string :=
  match s with
  | EmptyString => EmptyString
  | String c t => if p c then String c (filter p t) else filter p t
  end.

Fixpoint forallb (p : ascii -> bool) (s : string) : bool :=
  match s with
  | EmptyString => true
  | String c t => p c && forallb p t
  end.

Fixpoint existsb (p : ascii -> bool) (s : string) : bool :=
  match s with
  | EmptyString => false
  | String c t => p c || existsb p t
  end.

Definition is_empty (s : string) : bool :=
  match s with
  | EmptyString => true
  | String _ _ => false
  end.

(** [s.lower()] *)
Definition lower (s : string) : string := map lower_char s.

(** [s.isupper()]: no lower-case letter and at least one upper-case one. *)
Definition isupper (s : string) : bool :=
  negb (existsb islower_char s) && existsb isupper_char s.

Fixpoint lstrip (s : string) : string :=
  match s with
  | EmptyString => EmptyString
  | String c t => if isspace c then lstrip t else s
  end.

Fixpoint rstrip (s : string) : string :=
  match s with
  | EmptyString => EmptyString
  | String c t =>
      let r := rstrip t in
      if is_empty r && isspace c then EmptyString else String c r
  end.

(** [s.strip()] *)
Definition strip (s : string) : string := rstrip (lstrip s).

(** [s.split()]: the maximal runs of non-blank characters. [cur] is the
    run being read, in reverse. *)
Fixpoint split_aux (cur : list ascii) (s : string) : list string :=
  let flush rest :=
    match cur with
    | [] => rest
    | _ => string_of_list_ascii (rev cur) :: rest
    end in
  match s with
  | EmptyString => flush []
  | String c t =>
      if isspace c then flush (split_aux [] t) else split_aux (c :: cur) t
  end.

Definition split (s : string) : list string := split_aux [] s.

(** [sep.join(parts)] *)
Fixpoint join (sep : string) (parts : list string) : string :=
  match parts with
  | [] => ""
  | [p] => p
  | p :: rest => p +:+ sep +:+ join sep rest
  end.

(** [needle in hay] *)
Fixpoint contains (needle hay : string) : bool :=
  String.prefix needle hay ||
  match hay with
  | EmptyString => false
  | String _ t => contains needle t
  end.

(** The value of a decimal digit. *)
Definition digit_value (c : ascii) : Z := Z.of_nat (code c) - 48.

(** [int(s)] on the strings that [clean_int] passes to it: non-empty and
    made of [isdigit] characters only, so that no sign, blank or
    underscore is involved. The conversion reads decimal digits and
    rejects any other character with [ValueError]. The result has
    arbitrary precision; the interpreter's optional limit on the number of
    digits of a conversion is not modelled. *)
Fixpoint int_acc (acc : Z) (s : string) : result Z :=
  match s with
  | EmptyString => Ok acc
  | String c t =>
      if isdecimal c then int_acc (10 * acc + digit_value c) t
      else Raise ValueError
  end.

Definition int (s : string) : result Z :=
  if is_empty s then Raise ValueError else int_acc 0 s.

(** [str(n)] for an [int]. *)
Definition of_int (n : Z) : string := NilZero.string_of_int (Z.to_int n).

End Str.

(** ** Helpers *)

(** [text or ""]: the argument may be [None]. *)
Definition clean_int (text : option string) : result Z :=
  let digits := Str.filter Str.isdigit (default "" text) in
  if Str.is_empty digits then Ok 0 else Str.int digits.

(** ** The driver roster *)

Module Roster.

Record entry := Build_entry {
  first : string;
  last : string;
  number : Z;
  team : string;
  car : string
}.

End Roster.

Definition DRIVER_ROSTER : list Roster.entry := [
    Roster.Build_entry "Pierre" "Gasly" 10 "Alpine" "Alpine A526";
    Roster.Build_entry "Franco" "Colapinto" 43 "Alpine" "Alpine A526";
    Roster.Build_entry "Fernando" "Alonso" 14 "Aston Martin" "Aston Martin AMR26";
    Roster.Build_entry "Lance" "Stroll" 18 "Aston Martin" "Aston Martin AMR26";
    Roster.Build_entry "Nico" "Hulkenberg" 27 "Audi" "Audi R26";
    Roster.Build_entry "Gabriel" "Bortoleto" 5 "Audi" "Audi R26";
    Roster.Build_entry "Sergio" "Perez" 11 "Cadillac" "Cadillac";
    Roster.Build_entry "Valtteri" "Bottas" 77 "Cadillac" "Cadillac";
    Roster.Build_entry "Charles" "Leclerc" 16 "Ferrari" "Ferrari SF-26";
    Roster.Build_entry "Lewis" "Hamilton" 44 "Ferrari" "Ferrari SF-26";
    Roster.Build_entry "Esteban" "Ocon" 31 "Haas F1 Team" "Haas VF-26";
    Roster.Build_entry "Oliver" "Bearman" 87 "Haas F1 Team" "Haas VF-26";
    Roster.Build_entry "Lando" "Norris" 4 "McLaren" "McLaren MCL40";
    Roster.Build_entry "Oscar" "Piastri" 81 "McLaren" "McLaren MCL40";
    Roster.Build_entry "George" "Russell" 63 "Mercedes" "Mercedes W17";
    Roster.Build_entry "Kimi" "Antonelli" 12 "Mercedes" "Mercedes W17";
    Roster.Build_entry "Liam" "Lawson" 30 "Racing Bulls" "Racing Bulls VCARB 03";
    Roster.Build_entry "Arvid" "Lindblad" 6 "Racing Bulls" "Racing Bulls VCARB 03";
    Roster.Build_entry "Max" "Verstappen" 1 "Red Bull Racing" "Red Bull RB22";
    Roster.Build_entry "Isack" "Hadjar" 22 "Red Bull Racing" "Red Bull RB22";
    Roster.Build_entry "Carlos" "Sainz" 55 "Williams" "Williams FW48";
    Roster.Build_entry "Alexander" "Albon" 23 "Williams" "Williams FW48"
  ].

(** ** Standing records, the items of the output list *)

Module Standing.

Record t := Build_t {
  place : Z;
  number : Z;
  team : string;
  name : string;
  car : string;
  poles : Z;
  wins : Z;
  points : Z;
  odds : list (string * string)
}.

End Standing.

(** The literal [{"bet365": "0", "sportsbet": "0", "dabble": "0"}]. *)
Definition odds_literal : list (string * string) :=
  [("bet365", "0"); ("sportsbet", "0"); ("dabble", "0")].

(** ** The parsed document

    [BeautifulSoup] turns the text of the response into a tree of tags and
    text nodes. The scraper only navigates that tree, so the tree is the
    input of the model. *)

#[local] Set Warnings "-register-all".

Inductive node :=
| Text (s : string)
| Tag (name : string) (contents : list node).

(** [tag.descendants]: every node below [n], in document order. *)
Fixpoint descendants (n : node) : list node :=
  match n with
  | Text _ => []
  | Tag _ cs =>
      (fix below (l : list node) : list node :=
         match l with
         | [] => []
         | c :: r => c :: descendants c ++ below r
         end) cs
  end.

Definition named (names : list string) (n : node) : bool :=
  match n with
  | Text _ => false
  | Tag nm _ => bool_decide (nm ∈ names)
  end.

(** [tag.find_all(names)] *)
Definition find_all (names : list string) (n : node) : list node :=
  List.filter (named names) (descendants n).

(** [tag.find(name)]: the first match, or [None]. A tag is always truthy,
    so [if not tag] in the source tests for [None]. *)
Definition find (name : string) (n : node) : option node :=
  head (find_all [name] n).

Definition text_of (n : node) : option string :=
  match n with
  | Text s => Some s
  | Tag _ _ => None
  end.

(** [tag.get_text(separator, strip)] *)
Definition get_text (separator : string) (strip : bool) (n : node) : string :=
  let strings := omap text_of (descendants n) in
  Str.join separator
    (if strip
     then List.filter (fun s => negb (Str.is_empty s)) (List.map Str.strip strings)
     else strings).

(** ** Column detection *)

(** The body of the loop of [detect_columns]. *)
Definition detect_column (cols : gmap string nat) (i : nat) (th : node)
  : gmap string nat :=
  let text := Str.lower (get_text "" true th) in
  if Str.contains "pos" text then <["pos" := i]> cols
  else if Str.contains "driver" text then <["driver" := i]> cols
  else if Str.contains "nation" text then <["nationality" := i]> cols
  else if Str.contains "team" text || Str.contains "constructor" text
       then <["team" := i]> cols
  else if Str.contains "pts" text || Str.contains "point" text
       then <["pts" := i]> cols
  else if Str.contains "win" text then <["wins" := i]> cols
  else if Str.contains "pole" text then <["poles" := i]> cols
  else cols.

(** The loop [for i, th in enumerate(...)], from position [i] on. *)
Fixpoint detect_from (i : nat) (ths : list node) (cols : gmap string nat)
  : gmap string nat :=
  match ths with
  | [] => cols
  | th :: rest => detect_from (S i) rest (detect_column cols i th)
  end.

Definition detect_columns (header_row : node) : gmap string nat :=
  detect_from 0 (find_all ["th"] header_row) ∅.

(** ** Scraping *)

(** What [requests.get], [raise_for_status] and the parser deliver: an
    exception, which the source catches, or the document. *)
Inductive response :=
| HttpError
| Page (soup : node).

(** How one pass through the body of the row loop ends: the loop goes on
    with the next row ([continue], or the end of the body) and the list
    built so far, or the function returns. *)
Inductive flow :=
| Next (standings : list Standing.t)
| Return (value : list Standing.t).

(** The module-level constant [DRIVER_ROSTER] is a section variable in
    what follows, so that statements can range over rosters; the program
    is the instance at [DRIVER_ROSTER]. *)
Section Scraper.

Variable roster : list Roster.entry.

Definition roster_key (d : Roster.entry) : string :=
  Str.lower (Roster.first d) +:+ " " +:+ Str.lower (Roster.last d).

(** The dict comprehension: a later entry replaces an earlier one that has
    the same key. *)
Definition _ROSTER_BY_NAME : gmap string Roster.entry :=
  foldl (fun m d => <[roster_key d := d]> m) ∅ roster.

Definition lookup_driver (first last : string) : option Roster.entry :=
  let key := Str.lower (Str.strip first) +:+ " " +:+ Str.lower (Str.strip last) in
  _ROSTER_BY_NAME !! key.

(** The closure [cell_text] of the row loop. *)
Definition cell_text (cols : gmap string nat) (cells : list node)
    (col_name : string) : string :=
  match cols !! col_name with
  | None => ""
  | Some idx =>
      if (length cells <=? idx)%nat then ""
      else from_option (get_text " " true) "" (cells !! idx)
  end.

(** The first and the last name read from the driver cell. *)
Definition driver_name (cols : gmap string nat) (cells : list node)
  : string * string :=
  let driver_cell_idx := default 0%nat (cols !! "driver") in
  match cells !! driver_cell_idx with
  | Some driver_cell =>
      let name_parts :=
        List.filter (fun t => negb (Str.is_empty t))
          (List.map (get_text "" true)
             (find_all ["span"; "p"; "div"] driver_cell)) in
      let name_parts :=
        List.filter
          (fun p => negb (Str.isupper p && (String.length p =? 3)%nat))
          name_parts in
      match name_parts with
      | first_name :: last_name :: _ => (first_name, last_name)
      | _ =>
          let full := get_text " " true driver_cell in
          let parts := Str.split full in
          (match parts with
           | [] => ""
           | p :: _ => p
           end,
           match parts with
           | _ :: ((_ :: _) as rest) => Str.join " " rest
           | _ => ""
           end)
      end
  | None => ("", "")
  end.

(** The body of [for row in tbody.find_all("tr")]. *)
Definition interpret_row (cols : gmap string nat) (standings : list Standing.t)
    (row : node) : result flow :=
  let cells := find_all ["td"; "th"] row in
  if (length cells =? 0)%nat then Ok (Next standings)
  else if (length cells =? 1)%nat then Ok (Return [])
  else
    let* place := clean_int (Some (cell_text cols cells "pos")) in
    let '(first_name, last_name) := driver_name cols cells in
    let full_name := Str.strip (first_name +:+ " " +:+ last_name) in
    match lookup_driver first_name last_name with
    | None => Ok (Next standings)
    | Some roster_entry =>
        let* points := clean_int (Some (cell_text cols cells "pts")) in
        let* wins := clean_int (Some (cell_text cols cells "wins")) in
        let* poles := clean_int (Some (cell_text cols cells "poles")) in
        Ok (Next (standings ++ [
          {| Standing.place := place;
             Standing.number := Roster.number roster_entry;
             Standing.team := Roster.team roster_entry;
             Standing.name := full_name;
             Standing.car := Roster.car roster_entry;
             Standing.poles := poles;
             Standing.wins := wins;
             Standing.points := points;
             Standing.odds := odds_literal |} ]))
    end.

(** The loop over the rows, as far as it gets. *)
Fixpoint run_rows (cols : gmap string nat) (rows : list node)
    (standings : list Standing.t) : result flow :=
  match rows with
  | [] => Ok (Next standings)
  | row :: rest =>
      let* f := interpret_row cols standings row in
      match f with
      | Next standings' => run_rows cols rest standings'
      | Return v => Ok (Return v)
      end
  end.

(** The loop followed by [return standings]. *)
Definition interpret_rows (cols : gmap string nat) (rows : list node)
  : result (list Standing.t) :=
  let* f := run_rows cols rows [] in
  match f with
  | Next standings => Ok standings
  | Return v => Ok v
  end.

Definition required : list string := ["pos"; "driver"; "pts"].

(** [required - cols.keys()] *)
Definition missing (cols : gmap string nat) : list string :=
  List.filter (fun k => bool_decide (cols !! k = None)) required.

Definition fetch_standings (resp : response)
  : result (option (list Standing.t)) :=
  match resp with
  | HttpError => Ok None
  | Page soup =>
      match find "table" soup with
      | None => Ok None
      | Some table =>
          match find "thead" table, find "tbody" table with
          | Some thead, Some tbody =>
              match find "tr" thead with
              | None => Ok None
              | Some header_row =>
                  let cols := detect_columns header_row in
                  match missing cols with
                  | _ :: _ => Ok None
                  | [] =>
                      let* standings :=
                        interpret_rows cols (find_all ["tr"] tbody) in
                      Ok (Some standings)
                  end
              end
          | _, _ => Ok None
          end
      end
  end.

(** The list comprehension over [enumerate(DRIVER_ROSTER)], from position
    [i] on. *)
Fixpoint preseason_from (i : nat) (ds : list Roster.entry) : list Standing.t :=
  match ds with
  | [] => []
  | d :: rest =>
      {| Standing.place := Z.of_nat i + 1;
         Standing.number := Roster.number d;
         Standing.team := Roster.team d;
         Standing.name := Roster.first d +:+ " " +:+ Roster.last d;
         Standing.car := Roster.car d;
         Standing.poles := 0;
         Standing.wins := 0;
         Standing.points := 0;
         Standing.odds := odds_literal |} :: preseason_from (S i) rest
  end.

Definition build_preseason_standings : list Standing.t :=
  preseason_from 0 roster.

(** ** Output and [main]

    The file system is reduced to the contents of [OUTPUT_FILE]: [None]
    when the file does not exist, otherwise the list that was dumped into
    it. [main] takes the response and the file system to the exit code of
    the process and the file system it leaves behind. An exception that
    nothing catches ends the process with code 1, as [sys.exit(1)] does;
    returning from [main] ends it with code 0. *)

Definition save_json (data : list Standing.t)
    (fs : option (list Standing.t)) : option (list Standing.t) :=
  Some data.

Definition main (resp : response) (fs : option (list Standing.t))
  : Z * option (list Standing.t) :=
  match fetch_standings resp with
  | Raise _ => (1, fs)
  | Ok None => (1, fs)
  | Ok (Some standings) =>
      let standings :=
        if (length standings =? 0)%nat then build_preseason_standings
        else standings in
      (0, save_json standings fs)
  end.

End Scraper.

(** ** Vocabulary of the statements *)

(** The value of a list of decimal digits read from the most significant
    one on, after the digits already gathered in [acc]. *)
Fixpoint uint_value (acc : Z) (d : Decimal.uint) : Z :=
  match d with
  | Decimal.Nil => acc
  | Decimal.D0 l => uint_value (10 * acc + 0) l
  | Decimal.D1 l => uint_value (10 * acc + 1) l
  | Decimal.D2 l => uint_value (10 * acc + 2) l
  | Decimal.D3 l => uint_value (10 * acc + 3) l
  | Decimal.D4 l => uint_value (10 * acc + 4) l
  | Decimal.D5 l => uint_value (10 * acc + 5) l
  | Decimal.D6 l => uint_value (10 * acc + 6) l
  | Decimal.D7 l => uint_value (10 * acc + 7) l
  | Decimal.D8 l => uint_value (10 * acc + 8) l
  | Decimal.D9 l => uint_value (10 * acc + 9) l
  end.

(** A string is trimmed on the left when it does not start with a blank. *)
Definition left_trimmed (s : string) : bool :=
  match s with
  | EmptyString => true
  | String c _ => negb (Str.isspace c)
  end.

(** The header row and the table body of a response, when the page has the
    structure that [fetch_standings] insists on. *)
Definition table_parts (resp : response) : option (node * node) :=
  match resp with
  | HttpError => None
  | Page soup =>
      table ← find "table" soup;
      thead ← find "thead" table;
      tbody ← find "tbody" table;
      header_row ← find "tr" thead;
      Some (header_row, tbody)
  end.

(** The record that the fallback builder makes of the entry at position
    [i]. *)
Definition preseason_record (i : nat) (d : Roster.entry) : Standing.t :=
  {| Standing.place := Z.of_nat i + 1;
     Standing.number := Roster.number d;
     Standing.team := Roster.team d;
     Standing.name := Roster.first d +:+ " " +:+ Roster.last d;
     Standing.car := Roster.car d;
     Standing.poles := 0;
     Standing.wins := 0;
     Standing.points := 0;
     Standing.odds := odds_literal |}.

(** The keywords in the order in which [detect_columns] tests them, each
    with the field it stands for. *)
Definition keyword_table : list (string * string) :=
  [("pos", "pos"); ("driver", "driver"); ("nation", "nationality");
   ("team", "team"); ("constructor", "team");
   ("pts", "pts"); ("point", "pts");
   ("win", "wins"); ("pole", "poles")].

(** The field that a header cell selects: that of the first keyword of the
    table that its text contains. *)
Definition selected_field (text : string) : option string :=
  snd <$> List.find (fun kf => Str.contains kf.1 text) keyword_table.

(** The text that [detect_columns] tests for a header cell. *)
Definition label (th : node) : string := Str.lower (get_text "" true th).

Definition header_labels (header_row : node) : list string :=
  label <$> find_all ["th"] header_row.

(** Some keyword of the field [f] occurs in some label. *)
Definition keyword_appears (f : string) (labels : list string) : Prop :=
  exists kw l, (kw, f) ∈ keyword_table /\ l ∈ labels /\ Str.contains kw l = true.

(** The record [r] has its number, team and car from the entry [d]. *)
Definition from_entry (r : Standing.t) (d : Roster.entry) : Prop :=
  Standing.number r = Roster.number d /\
  Standing.team r = Roster.team d /\
  Standing.car r = Roster.car d.

(** A record of the live path: one entry, the one that [lookup_driver]
    gave for the names that the record's name is made of. *)
Definition live_record (roster : list Roster.entry) (r : Standing.t) : Prop :=
  exists first_name last_name d,
    lookup_driver roster first_name last_name = Some d /\
    Standing.name r = Str.strip (first_name +:+ " " +:+ last_name) /\
    from_entry r d.

(** A record of the fallback path: one entry, whose own name it has. *)
Definition fallback_record (roster : list Roster.entry) (r : Standing.t) : Prop :=
  exists d,
    d ∈ roster /\
    Standing.name r = Roster.first d +:+ " " +:+ Roster.last d /\
    from_entry r d.

(** ** Sample pages *)

(** The superscript two, U+00B2; characters outside ASCII are written by
    code point. *)
Definition sup2 : string := String (ascii_of_nat 178) "".

Definition th (s : string) : node := Tag "th" [Text s].
Definition td (s : string) : node := Tag "td" [Text s].
Definition tr (cells : list node) : node := Tag "tr" cells.

Definition page (header : list node) (body : list node) : response :=
  Page (Tag "html" [Tag "body" [
    Tag "table" [Tag "thead" [tr header]; Tag "tbody" body]]]).

Definition header_A : list node :=
  [th "Pos"; th "Driver"; th "Nationality"; th "Team"; th "Pts"].

Definition header_short : list node := [th "Pos"; th "Driver"; th "Pts"].

(** One result row. *)
Definition scenario_A : response :=
  page header_A
    [tr [td "1"; td "Max Verstappen"; td "NED"; td "Red Bull Racing"; td "25"]].

Definition scenario_A_record : Standing.t :=
  {| Standing.place := 1;
     Standing.number := 1;
     Standing.team := "Red Bull Racing";
     Standing.name := "Max Verstappen";
     Standing.car := "Red Bull RB22";
     Standing.poles := 0;
     Standing.wins := 0;
     Standing.points := 25;
     Standing.odds := odds_literal |}.

(** The names in separate elements, next to the three-letter code. *)
Definition scenario_spans : response :=
  page header_A
    [tr [td "1";
         Tag "td" [Tag "a" [Tag "span" [Text "Max"];
                            Tag "span" [Text " Verstappen "];
                            Tag "span" [Text "VER"]]];
         td "NED"; td "Red Bull Racing"; td "25"]].

(** Only the placeholder row. *)
Definition scenario_B : response :=
  page header_A [tr [td "No results available"]].

(** A first row whose position cell reads "1" followed by a superscript
    two (a footnote mark), then the placeholder row. *)
Definition page_footnote_then_placeholder : response :=
  page header_short
    [tr [td ("1" +:+ sup2); td "Max Verstappen"; td "25"];
     tr [td "No results available"]].

(** A row for a driver that the roster does not know, with the same
    footnote mark in its position cell, followed by an ordinary row. *)
Definition page_unknown_with_footnote : response :=
  page header_short
    [tr [td ("1" +:+ sup2); td "Juan Fangio"; td "25"];
     tr [td "2"; td "Max Verstappen"; td "18"]].

(** A row for a driver that the roster does not know, followed by an
    ordinary row. *)
Definition page_unknown_driver : response :=
  page header_short
    [tr [td "1"; td "Juan Fangio"; td "25"];
     tr [td "2"; td "Max Verstappen"; td "18"]].

(** An ordinary row followed by the placeholder row. *)
Definition page_row_then_placeholder : response :=
  page header_short
    [tr [td "1"; td "Max Verstappen"; td "25"];
     tr [td "No results available"]].

(** A header without a points column. *)
Definition page_no_points : response :=
  page [th "Pos"; th "Driver"; th "Team"]
    [tr [td "1"; td "Max Verstappen"; td "Red Bull Racing"]].

Definition verstappen : Roster.entry :=
  Roster.Build_entry "Max" "Verstappen" 1 "Red Bull Racing" "Red Bull RB22".

(** ** Further vocabulary *)

(** A character that [isdigit] accepts and [int] does not read. *)
Definition stray_digit (c : ascii) : bool :=
  Str.isdigit c && negb (Str.isdecimal c).

(** The fields that [detect_columns] can put into the map. *)
Definition semantic_fields : list string :=
  ["pos"; "driver"; "nationality"; "team"; "pts"; "wins"; "poles"].

(** The response is an error, or the page lacks the table, its head, its
    body, or the row of the head. *)
Definition malformed (resp : response) : Prop :=
  resp = HttpError \/
  exists soup, resp = Page soup /\
    (find "table" soup = None \/
     exists table, find "table" soup = Some table /\
       (find "thead" table = None \/
        find "tbody" table = None \/
        exists thead, find "thead" table = Some thead /\
          find "tr" thead = None)).

(** The column [k] cannot be read in a row with the cells [cells]: the map
    has no such column, or its position lies beyond the cells. *)
Definition unreadable (cols : gmap string nat) (cells : list node)
    (k : string) : Prop :=
  match cols !! k with
  | None => True
  | Some idx => (length cells <= idx)%nat
  end.

Definition has_cells (row : node) : bool :=
  negb (length (find_all ["td"; "th"] row) =? 0)%nat.

(** A row that the loop passes over: it has no cells, or it has at least
    two, its position cell cleans, and its name is not in the roster. *)
Definition passed_over (roster : list Roster.entry) (cols : gmap string nat)
    (row : node) : Prop :=
  let cells := find_all ["td"; "th"] row in
  cells = [] \/
  ((1 < length cells)%nat /\
   (exists place, clean_int (Some (cell_text cols cells "pos")) = Ok place) /\
   lookup_driver roster (driver_name cols cells).1 (driver_name cols cells).2
     = None).

(** The row, taken by itself, adds the record [r]. *)
Definition row_yields (roster : list Roster.entry) (cols : gmap string nat)
    (row : node) (r : Standing.t) : Prop :=
  interpret_row roster cols [] row = Ok (Next [r]).

(** No blank at either end. *)
Definition trimmed (s : string) : Prop := Str.strip s = s.

Definition blank_free (s : string) : bool :=
  Str.forallb (fun c => negb (Str.isspace c)) s.

(** ** Further sample pages *)

(** A table without a body. *)
Definition page_no_tbody : response :=
  Page (Tag "html" [Tag "body" [Tag "table" [Tag "thead" [tr header_short]]]]).

(** An ordinary row followed by a row with a footnote mark in its points
    cell. *)
Definition page_row_then_footnote : response :=
  page header_short
    [tr [td "1"; td "Max Verstappen"; td "25"];
     tr [td "2"; td "Lando Norris"; td ("18" +:+ sup2)]].

(** Rows for drivers that the roster does not know, and a row without
    cells. *)
Definition page_only_unknown : response :=
  page header_short
    [tr [td "1"; td "Juan Fangio"; td "25"];
     tr [];
     tr [td "2"; td "Stirling Moss"; td "18"]].

(** Two result rows, a row without cells between them, and a short row. *)
Definition page_two_rows : response :=
  page header_A
    [tr [td "1"; td "Max Verstappen"; td "NED"; td "Red Bull Racing"; td "25"];
     tr [];
     tr [td "2"; td "lando NORRIS"]].

Definition norris_record : Standing.t :=
  {| Standing.place := 2;
     Standing.number := 4;
     Standing.team := "McLaren";
     Standing.name := "lando NORRIS";
     Standing.car := "McLaren MCL40";
     Standing.poles := 0;
     Standing.wins := 0;
     Standing.points := 0;
     Standing.odds := odds_literal |}.

(** A roster in which two entries have the same key. *)
Definition roster_twice : list Roster.entry :=
  [Roster.Build_entry "Max" "Verstappen" 33 "Red Bull Racing" "Red Bull RB16";
   Roster.Build_entry "Lando" "Norris" 4 "McLaren" "McLaren MCL40";
   Roster.Build_entry "MAX" "VERSTAPPEN" 1 "Red Bull Racing" "Red Bull RB22"].

(** The record [r] is what the row gives with the roster entry [d]: the
    entry is the one looked up for the names of the driver cell, the four
    numbers are the cleaned texts of their cells, and the name is the two
    names joined by a space. *)
Definition merged (roster : list Roster.entry) (cols : gmap string nat)
    (row : node) (r : Standing.t) (d : Roster.entry) : Prop :=
  let cells := find_all ["td"; "th"] row in
  let first_name := (driver_name cols cells).1 in
  let last_name := (driver_name cols cells).2 in
  lookup_driver roster first_name last_name = Some d /\
  clean_int (Some (cell_text cols cells "pos")) = Ok (Standing.place r) /\
  clean_int (Some (cell_text cols cells "pts")) = Ok (Standing.points r) /\
  clean_int (Some (cell_text cols cells "wins")) = Ok (Standing.wins r) /\
  clean_int (Some (cell_text cols cells "poles")) = Ok (Standing.poles r) /\
  from_entry r d /\
  Standing.name r = Str.strip (first_name +:+ " " +:+ last_name) /\
  Standing.odds r = odds_literal.

(** * Part II: properties *)

(** ** The model on sample inputs *)

Example clean_int_none : clean_int None = Ok 0.
Proof. reflexivity. Qed.

Example clean_int_samples :
  clean_int (Some "1,024 pts") = Ok 1024 /\ clean_int (Some "-7.5") = Ok 75
  /\ clean_int (Some "007") = Ok 7 /\ clean_int (Some "n/a") = Ok 0.
Proof. repeat split. Qed.

Example strip_sample : Str.strip "  a b  " = "a b".
Proof. reflexivity. Qed.

Example split_sample : Str.split "  ab  c d " = ["ab"; "c"; "d"].
Proof. reflexivity. Qed.

Example split_blank : Str.split "   " = [].
Proof. reflexivity. Qed.

Example isupper_sample :
  Str.isupper "NED" = true /\ Str.isupper "Ned" = false
  /\ Str.isupper "123" = false /\ Str.isupper "A1" = true.
Proof. repeat split. Qed.

Example of_int_sample : Str.of_int 120 = "120" /\ Str.of_int 0 = "0".
Proof. split; reflexivity. Qed.

Example detect_columns_header_A :
  map_to_list (detect_columns (tr header_A)) ≡ₚ
  [("pos", 0%nat); ("driver", 1%nat); ("nationality", 2%nat);
   ("team", 3%nat); ("pts", 4%nat)].
Proof. vm_compute. by apply (bool_decide_unpack _). Qed.

Example scenario_A_output :
  main DRIVER_ROSTER scenario_A None = (0, Some [scenario_A_record]).
Proof. vm_compute. reflexivity. Qed.

Example scenario_spans_output :
  main DRIVER_ROSTER scenario_spans None = (0, Some [scenario_A_record]).
Proof. vm_compute. reflexivity. Qed.

Example scenario_B_output :
  main DRIVER_ROSTER scenario_B None
  = (0, Some (build_preseason_standings DRIVER_ROSTER)).
Proof. vm_compute. reflexivity. Qed.

Example scenario_C_output fs : main DRIVER_ROSTER HttpError fs = (1, fs).
Proof. reflexivity. Qed.

Example unknown_driver_dropped :
  fetch_standings DRIVER_ROSTER page_unknown_driver
  = Ok (Some [ {| Standing.place := 2;
                  Standing.number := 1;
                  Standing.team := "Red Bull Racing";
                  Standing.name := "Max Verstappen";
                  Standing.car := "Red Bull RB22";
                  Standing.poles := 0;
                  Standing.wins := 0;
                  Standing.points := 18;
                  Standing.odds := odds_literal |} ]).
Proof. vm_compute. reflexivity. Qed.

(** ** Numeric cleansing *)

Section CleanInt.

Import Decimal.

Lemma int_acc_string_of_uint d acc :
  Str.int_acc acc (NilEmpty.string_of_uint d) = Ok (uint_value acc d).
Proof.
  revert acc; induction d; intros acc; simpl; try reflexivity;
    rewrite <- IHd; reflexivity.
Qed.

Lemma of_uint_acc_value d acc :
  Z.pos (Pos.of_uint_acc d acc) = uint_value (Z.pos acc) d.
Proof.
  revert acc; induction d; intros acc; simpl; try reflexivity;
    rewrite IHd; f_equal; lia.
Qed.

Lemma of_uint_value d : Z.of_N (Pos.of_uint d) = uint_value 0 d.
Proof.
  induction d; simpl; try reflexivity; try assumption;
    rewrite of_uint_acc_value; reflexivity.
Qed.

Lemma filter_isdigit_string_of_uint d :
  Str.filter Str.isdigit (NilEmpty.string_of_uint d) = NilEmpty.string_of_uint d.
Proof. induction d; simpl; try reflexivity; rewrite IHd; reflexivity. Qed.

Lemma string_of_uint_nonempty d :
  d <> Nil -> Str.is_empty (NilEmpty.string_of_uint d) = false.
Proof. destruct d; simpl; congruence. Qed.

(** Reading back what [str] prints for a natural number. *)
Lemma clean_int_of_int n : 0 <= n -> clean_int (Some (Str.of_int n)) = Ok n.
Proof.
  intros Hn. destruct n as [|p|p]; [reflexivity| |lia].
  unfold clean_int, Str.of_int; simpl.
  pose proof (DecimalPos.Unsigned.to_uint_nonnil p) as Hnil.
  assert (NilZero.string_of_uint (Pos.to_uint p)
          = NilEmpty.string_of_uint (Pos.to_uint p)) as ->.
  { destruct (Pos.to_uint p); simpl; congruence. }
  rewrite filter_isdigit_string_of_uint.
  unfold Str.int. rewrite string_of_uint_nonempty by assumption.
  rewrite int_acc_string_of_uint, <- of_uint_value.
  rewrite DecimalPos.Unsigned.of_to. reflexivity.
Qed.

Lemma isdecimal_digit_value c :
  Str.isdecimal c = true -> 0 <= Str.digit_value c <= 9.
Proof.
  unfold Str.isdecimal, Str.digit_value, Str.between.
  intros [H1 H2]%andb_prop.
  apply Nat.leb_le in H1, H2. lia.
Qed.

Lemma int_acc_bound s : forall acc n,
  0 <= acc -> Str.int_acc acc s = Ok n -> acc <= n.
Proof.
  induction s as [|c t IH]; intros acc n Hacc; simpl.
  - intros [= <-]. lia.
  - destruct (Str.isdecimal c) eqn:Hc; [|discriminate].
    intros H. apply isdecimal_digit_value in Hc.
    apply IH in H; lia.
Qed.

(** Whatever [clean_int] returns is a natural number. *)
Lemma clean_int_nonneg text n : clean_int text = Ok n -> 0 <= n.
Proof.
  unfold clean_int, Str.int.
  destruct (Str.is_empty _); [intros [= <-]; lia|].
  intros H. apply int_acc_bound in H; lia.
Qed.

Lemma int_acc_decimal s : forall acc,
  Str.forallb Str.isdecimal s = true -> exists n, Str.int_acc acc s = Ok n.
Proof.
  induction s as [|c t IH]; intros acc; simpl; [eauto|].
  intros [Hc Ht]%andb_prop. rewrite Hc. eauto.
Qed.

(** On a text whose digits are all decimal, [clean_int] returns. *)
Lemma clean_int_decimal text :
  Str.forallb Str.isdecimal (Str.filter Str.isdigit text) = true ->
  exists n, clean_int (Some text) = Ok n /\ 0 <= n.
Proof.
  intros H. unfold clean_int, Str.int; simpl.
  destruct (Str.is_empty _) eqn:He; [exists 0; split; [reflexivity|lia]|].
  destruct (int_acc_decimal _ 0 H) as [n Hn].
  exists n. split; [assumption|]. apply int_acc_bound in Hn; lia.
Qed.

(** [clean_int] raises exactly on the texts that hold a digit that is not
    decimal. *)
Lemma int_acc_raises s : forall acc,
  Str.forallb Str.isdecimal s = false -> Str.int_acc acc s = Raise ValueError.
Proof.
  induction s as [|c t IH]; intros acc; simpl; [discriminate|].
  destruct (Str.isdecimal c); simpl; [apply IH|reflexivity].
Qed.

Lemma clean_int_raises text :
  Str.forallb Str.isdecimal (Str.filter Str.isdigit text) = false ->
  clean_int (Some text) = Raise ValueError.
Proof.
  intros H. unfold clean_int, Str.int; simpl.
  destruct (Str.filter Str.isdigit text) eqn:E; [discriminate|].
  simpl Str.is_empty. cbv iota. apply int_acc_raises, H.
Qed.

(** The round trip through [str], for every text on which [clean_int]
    returns. *)
Lemma clean_int_str_clean_int text n :
  clean_int text = Ok n -> clean_int (Some (Str.of_int n)) = Ok n.
Proof. intros H. apply clean_int_of_int. eapply clean_int_nonneg, H. Qed.

End CleanInt.

(** ** Case folding and trimming *)

Ltac each_char c := destruct c as [[] [] [] [] [] [] [] []]; reflexivity.

Lemma lower_char_idem c : Str.lower_char (Str.lower_char c) = Str.lower_char c.
Proof. each_char c. Qed.

Lemma isspace_lower_char c : Str.isspace (Str.lower_char c) = Str.isspace c.
Proof. each_char c. Qed.

Lemma is_empty_map f s : Str.is_empty (Str.map f s) = Str.is_empty s.
Proof. destruct s; reflexivity. Qed.

Lemma lower_idem s : Str.lower (Str.lower s) = Str.lower s.
Proof.
  unfold Str.lower. induction s as [|c t IH]; simpl; [reflexivity|].
  rewrite lower_char_idem, IH. reflexivity.
Qed.

Lemma lstrip_lower s : Str.lstrip (Str.lower s) = Str.lower (Str.lstrip s).
Proof.
  unfold Str.lower. induction s as [|c t IH]; simpl; [reflexivity|].
  rewrite isspace_lower_char. destruct (Str.isspace c); [assumption|reflexivity].
Qed.

Lemma rstrip_lower s : Str.rstrip (Str.lower s) = Str.lower (Str.rstrip s).
Proof.
  unfold Str.lower. induction s as [|c t IH]; simpl; [reflexivity|].
  rewrite IH, is_empty_map, isspace_lower_char.
  destruct (Str.is_empty (Str.rstrip t) && Str.isspace c); reflexivity.
Qed.

Lemma strip_lower s : Str.strip (Str.lower s) = Str.lower (Str.strip s).
Proof. unfold Str.strip. rewrite lstrip_lower, rstrip_lower. reflexivity. Qed.

Lemma rstrip_idem s : Str.rstrip (Str.rstrip s) = Str.rstrip s.
Proof.
  induction s as [|c t IH]; simpl; [reflexivity|].
  destruct (Str.is_empty (Str.rstrip t) && Str.isspace c) eqn:E; simpl;
    [reflexivity|]. rewrite IH, E. reflexivity.
Qed.

Lemma lstrip_left_trimmed s : left_trimmed (Str.lstrip s) = true.
Proof.
  induction s as [|c t IH]; simpl; [reflexivity|].
  destruct (Str.isspace c) eqn:E; [assumption|]. simpl. rewrite E. reflexivity.
Qed.

Lemma lstrip_fixed s : left_trimmed s = true -> Str.lstrip s = s.
Proof.
  destruct s as [|c t]; simpl; [reflexivity|].
  destruct (Str.isspace c); [discriminate|reflexivity].
Qed.

Lemma rstrip_left_trimmed s :
  left_trimmed s = true -> left_trimmed (Str.rstrip s) = true.
Proof.
  destruct s as [|c t]; simpl; [reflexivity|].
  intros H. destruct (Str.isspace c) eqn:E; [discriminate|].
  rewrite andb_false_r. simpl. rewrite E. reflexivity.
Qed.

Lemma strip_idem s : Str.strip (Str.strip s) = Str.strip s.
Proof.
  unfold Str.strip.
  rewrite (lstrip_fixed (Str.rstrip (Str.lstrip s))).
  - apply rstrip_idem.
  - apply rstrip_left_trimmed, lstrip_left_trimmed.
Qed.

(** The normal form that [lookup_driver] computes is a fixed point of the
    normalisation. *)
Lemma normalise_idem s :
  Str.lower (Str.strip (Str.lower (Str.strip s))) = Str.lower (Str.strip s).
Proof. rewrite strip_lower, strip_idem, lower_idem. reflexivity. Qed.

(** ** The name index *)

Lemma find_app {A} (p : A -> bool) (l1 l2 : list A) :
  List.find p (l1 ++ l2) =
  match List.find p l1 with
  | Some x => Some x
  | None => List.find p l2
  end.
Proof.
  induction l1 as [|x l1 IH]; simpl; [reflexivity|].
  destruct (p x); [reflexivity|assumption].
Qed.

Section Index.

Variable roster : list Roster.entry.

Lemma index_fold_lookup (ds : list Roster.entry) :
  forall (m : gmap string Roster.entry) key,
    foldl (fun m d => <[roster_key d := d]> m) m ds !! key =
    match List.find (fun d => bool_decide (roster_key d = key)) (rev ds) with
    | Some d => Some d
    | None => m !! key
    end.
Proof.
  induction ds as [|d ds IH]; intros m key; simpl; [reflexivity|].
  rewrite IH, find_app.
  destruct (List.find _ (rev ds)); [reflexivity|]. simpl.
  case_bool_decide as E.
  - subst key. apply lookup_insert_eq.
  - apply lookup_insert_ne. assumption.
Qed.

(** The index maps a key to the last roster entry that has this key. *)
Lemma roster_by_name_lookup key :
  _ROSTER_BY_NAME roster !! key =
  List.find (fun d => bool_decide (roster_key d = key)) (rev roster).
Proof.
  unfold _ROSTER_BY_NAME. rewrite index_fold_lookup, lookup_empty.
  destruct (List.find _ _); reflexivity.
Qed.

Lemma roster_by_name_some key d :
  _ROSTER_BY_NAME roster !! key = Some d -> d ∈ roster /\ roster_key d = key.
Proof.
  rewrite roster_by_name_lookup. intros [Hin Hk]%find_some.
  apply bool_decide_eq_true in Hk. split; [|assumption].
  apply list_elem_of_In. apply in_rev. assumption.
Qed.

Lemma roster_by_name_none key :
  _ROSTER_BY_NAME roster !! key = None <->
  forall d, d ∈ roster -> roster_key d <> key.
Proof.
  rewrite roster_by_name_lookup. split.
  - intros H d Hd. eapply find_none in H.
    + apply bool_decide_eq_false in H. exact H.
    + apply in_rev. rewrite rev_involutive. apply list_elem_of_In, Hd.
  - intros H. destruct (List.find _ _) as [d|] eqn:E; [|reflexivity].
    apply find_some in E as [Hin Hk]. apply bool_decide_eq_true in Hk.
    exfalso. apply (H d); [|assumption].
    apply list_elem_of_In, in_rev. assumption.
Qed.

Lemma lookup_driver_in first_name last_name d :
  lookup_driver roster first_name last_name = Some d -> d ∈ roster.
Proof. intros H. apply roster_by_name_some in H as [H _]. exact H. Qed.

End Index.

(** ** The row loop *)

Section Loop.

Variable roster : list Roster.entry.

Lemma fetch_standings_parts resp :
  fetch_standings roster resp =
  match table_parts resp with
  | None => Ok None
  | Some (header_row, tbody) =>
      match missing (detect_columns header_row) with
      | _ :: _ => Ok None
      | [] =>
          let* standings :=
            interpret_rows roster (detect_columns header_row)
              (find_all ["tr"] tbody) in
          Ok (Some standings)
      end
  end.
Proof.
  destruct resp as [|soup]; simpl; [reflexivity|].
  destruct (find "table" soup) as [table|]; simpl; [|reflexivity].
  destruct (find "thead" table) as [thead|]; simpl;
    [|destruct (find "tbody" table); reflexivity].
  destruct (find "tbody" table) as [tbody|]; simpl; [|reflexivity].
  destruct (find "tr" thead); reflexivity.
Qed.

Lemma main_of_fetch resp fs :
  main roster resp fs =
  match fetch_standings roster resp with
  | Ok (Some []) => (0, Some (build_preseason_standings roster))
  | Ok (Some standings) => (0, Some standings)
  | _ => (1, fs)
  end.
Proof.
  unfold main, save_json.
  destruct (fetch_standings roster resp) as [[[|r s]|]|e]; reflexivity.
Qed.

Lemma missing_nil cols :
  missing cols = [] <-> forall k, k ∈ required -> is_Some (cols !! k).
Proof.
  unfold missing, required. simpl. split.
  - intros Hm k Hk.
    destruct (cols !! k) eqn:E; [eauto|exfalso].
    rewrite !elem_of_cons, elem_of_nil in Hk.
    destruct Hk as [->|[->|[->|[]]]]; rewrite E in Hm; simpl in Hm;
      repeat case_bool_decide; discriminate.
  - intros Hall.
    destruct (Hall "pos") as [? ->]; [repeat constructor|].
    destruct (Hall "driver") as [? ->]; [repeat constructor|].
    destruct (Hall "pts") as [? ->]; [repeat constructor|].
    reflexivity.
Qed.

Lemma run_rows_app cols pre : forall rest acc acc',
  run_rows roster cols pre acc = Ok (Next acc') ->
  run_rows roster cols (pre ++ rest) acc = run_rows roster cols rest acc'.
Proof.
  induction pre as [|row pre IH]; intros rest acc acc'; simpl.
  - intros [= ->]. reflexivity.
  - destruct (interpret_row roster cols acc row) as [[s|v]|e]; simpl;
      [apply IH|discriminate|discriminate].
Qed.

(** A row with exactly one cell makes the function return the empty list,
    whatever has been collected. *)
Lemma interpret_row_single cols acc row :
  length (find_all ["td"; "th"] row) = 1%nat ->
  interpret_row roster cols acc row = Ok (Return []).
Proof. intros H. unfold interpret_row. rewrite H. reflexivity. Qed.

(** A row without cells is skipped. *)
Lemma interpret_row_no_cells cols acc row :
  find_all ["td"; "th"] row = [] ->
  interpret_row roster cols acc row = Ok (Next acc).
Proof. intros H. unfold interpret_row. rewrite H. reflexivity. Qed.

(** Once its position cell has been cleaned, a row whose name is not in
    the roster is skipped: the list is unchanged and the loop goes on. *)
Lemma interpret_row_unknown cols acc row place :
  let cells := find_all ["td"; "th"] row in
  (1 < length cells)%nat ->
  clean_int (Some (cell_text cols cells "pos")) = Ok place ->
  lookup_driver roster (driver_name cols cells).1 (driver_name cols cells).2 = None ->
  interpret_row roster cols acc row = Ok (Next acc).
Proof.
  intros cells Hlen Hplace Hnone. unfold interpret_row. fold cells.
  destruct (length cells) as [|[|n]] eqn:E; [lia|lia|]. simpl.
  rewrite Hplace. simpl.
  destruct (driver_name cols cells) as [f l]. simpl in Hnone.
  rewrite Hnone. reflexivity.
Qed.

(** When the rows before it have been gone through, a row with exactly one
    cell empties the result. *)
Lemma run_rows_sentinel cols pre row post acc :
  run_rows roster cols pre [] = Ok (Next acc) ->
  length (find_all ["td"; "th"] row) = 1%nat ->
  interpret_rows roster cols (pre ++ row :: post) = Ok [].
Proof.
  intros Hpre Hrow. unfold interpret_rows.
  rewrite (run_rows_app _ _ _ _ _ Hpre). simpl.
  rewrite interpret_row_single by assumption. reflexivity.
Qed.

(** The loop stops at the first row that raises. *)
Lemma run_rows_raise cols pre row post acc e :
  run_rows roster cols pre [] = Ok (Next acc) ->
  interpret_row roster cols acc row = Raise e ->
  interpret_rows roster cols (pre ++ row :: post) = Raise e.
Proof.
  intros Hpre Hrow. unfold interpret_rows.
  rewrite (run_rows_app _ _ _ _ _ Hpre). simpl.
  rewrite Hrow. reflexivity.
Qed.

End Loop.

(** ** The fallback builder *)

Lemma preseason_from_length ds : forall i,
  length (preseason_from i ds) = length ds.
Proof. induction ds as [|d ds IH]; intros i; simpl; [|rewrite IH]; reflexivity. Qed.

Lemma preseason_from_lookup ds : forall i k d,
  ds !! k = Some d ->
  preseason_from i ds !! k = Some (preseason_record (i + k) d).
Proof.
  induction ds as [|d0 ds IH]; intros i k d; [discriminate|].
  destruct k as [|k]; simpl.
  - intros [= ->]. rewrite Nat.add_0_r. reflexivity.
  - intros H. rewrite (IH (S i) k d H). do 2 f_equal. lia.
Qed.

(** ** Where the fields of a record come from *)

Section Provenance.

Variable roster : list Roster.entry.

Lemma interpret_row_live cols acc row f :
  interpret_row roster cols acc row = Ok f ->
  Forall (live_record roster) acc ->
  match f with
  | Next acc' => Forall (live_record roster) acc'
  | Return v => v = []
  end.
Proof.
  unfold interpret_row. intros H Hacc.
  destruct (length (find_all ["td"; "th"] row) =? 0)%nat;
    [injection H as <-; assumption|].
  destruct (length (find_all ["td"; "th"] row) =? 1)%nat;
    [injection H as <-; reflexivity|].
  destruct (clean_int (Some (cell_text cols _ "pos"))) as [place|]; simpl in H;
    [|discriminate].
  destruct (driver_name cols _) as [first_name last_name].
  destruct (lookup_driver roster first_name last_name) as [d|] eqn:Hd;
    [|injection H as <-; assumption].
  destruct (clean_int (Some (cell_text cols _ "pts"))) as [points|]; simpl in H;
    [|discriminate].
  destruct (clean_int (Some (cell_text cols _ "wins"))) as [wins|]; simpl in H;
    [|discriminate].
  destruct (clean_int (Some (cell_text cols _ "poles"))) as [poles|]; simpl in H;
    [|discriminate].
  injection H as <-. apply Forall_app. split; [assumption|].
  constructor; [|constructor].
  exists first_name, last_name, d. repeat split; [assumption].
Qed.

Lemma run_rows_live cols rows : forall acc f,
  run_rows roster cols rows acc = Ok f ->
  Forall (live_record roster) acc ->
  Forall (live_record roster) match f with Next s => s | Return v => v end.
Proof.
  induction rows as [|row rows IH]; intros acc f; simpl.
  - intros [= <-]. auto.
  - destruct (interpret_row roster cols acc row) as [g|] eqn:Hrow; simpl;
      [|discriminate].
    intros H Hacc. pose proof (interpret_row_live _ _ _ _ Hrow Hacc) as Hg.
    destruct g as [acc'|v].
    + eapply IH; eassumption.
    + injection H as <-. subst v. constructor.
Qed.

Lemma fetch_standings_live resp standings :
  fetch_standings roster resp = Ok (Some standings) ->
  Forall (live_record roster) standings.
Proof.
  rewrite fetch_standings_parts.
  destruct (table_parts resp) as [[header_row tbody]|]; [|discriminate].
  destruct (missing _); [|discriminate].
  unfold interpret_rows.
  destruct (run_rows roster _ _ []) as [f|] eqn:Hrun; simpl; [|discriminate].
  apply run_rows_live in Hrun; [|constructor].
  destruct f; intros [= <-]; assumption.
Qed.

Lemma build_preseason_standings_fallback :
  Forall (fallback_record roster) (build_preseason_standings roster).
Proof.
  apply Forall_lookup. intros k r Hk.
  destruct (roster !! k) as [d|] eqn:E.
  - unfold build_preseason_standings in Hk.
    rewrite (preseason_from_lookup _ 0 k d E) in Hk. injection Hk as <-.
    exists d. repeat split. eapply list_elem_of_lookup_2, E.
  - apply lookup_ge_None in E. apply lookup_lt_Some in Hk.
    unfold build_preseason_standings in Hk.
    rewrite preseason_from_length in Hk. lia.
Qed.

End Provenance.

(** ** Column detection *)

Lemma detect_column_selected cols i th :
  detect_column cols i th =
  match selected_field (label th) with
  | Some f => <[f := i]> cols
  | None => cols
  end.
Proof.
  unfold detect_column, selected_field, label, keyword_table. simpl.
  repeat (destruct (Str.contains _ _); simpl; try reflexivity).
Qed.

Lemma detect_from_dom ths : forall i (cols : gmap string nat) f,
  f ∈ dom (detect_from i ths cols) <->
  f ∈ dom cols \/ exists th, th ∈ ths /\ selected_field (label th) = Some f.
Proof.
  induction ths as [|th ths IH]; intros i cols f; simpl.
  - split; [auto|]. intros [H|(th & Hth & _)]; [assumption|].
    apply elem_of_nil in Hth as [].
  - rewrite IH, detect_column_selected. split.
    + intros [H|(th' & Hin & Hsel)].
      * destruct (selected_field (label th)) as [g|] eqn:E; [|auto].
        rewrite dom_insert_L, elem_of_union, elem_of_singleton in H.
        destruct H as [->|H]; [|auto].
        right. exists th. split; [constructor|assumption].
      * right. exists th'. split; [constructor|]; assumption.
    + intros [H|(th' & Hin & Hsel)].
      * left. destruct (selected_field (label th)); [|assumption].
        rewrite dom_insert_L, elem_of_union. auto.
      * apply elem_of_cons in Hin as [->|Hin].
        -- left. rewrite Hsel, dom_insert_L, elem_of_union, elem_of_singleton. auto.
        -- right. eauto.
Qed.

(** The position a field is mapped to is that of the last cell that
    selects it. *)
Lemma detect_from_lookup ths : forall i (cols : gmap string nat) f n,
  detect_from i ths cols !! f = Some n ->
  (cols !! f = Some n /\
   forall th, th ∈ ths -> selected_field (label th) <> Some f) \/
  (exists j th, ths !! j = Some th /\ n = (i + j)%nat /\
     selected_field (label th) = Some f /\
     forall j' th', (j < j')%nat -> ths !! j' = Some th' ->
       selected_field (label th') <> Some f).
Proof.
  induction ths as [|th ths IH]; intros i cols f n; simpl.
  - intros H. left. split; [assumption|]. intros th Hth.
    apply elem_of_nil in Hth as [].
  - intros H. apply IH in H as [[Hc Hno]|(j & th' & Hj & -> & Hsel & Hlast)].
    + rewrite detect_column_selected in Hc.
      destruct (selected_field (label th)) as [g|] eqn:E.
      * destruct (decide (g = f)) as [->|Hne].
        -- rewrite lookup_insert_eq in Hc. injection Hc as <-.
           right. exists 0%nat, th.
           split; [reflexivity|]. split; [lia|]. split; [assumption|].
           intros [|j'] th' Hlt Hj'; [lia|]. simpl in Hj'.
           apply Hno. eapply list_elem_of_lookup_2, Hj'.
        -- rewrite lookup_insert_ne in Hc by assumption.
           left. split; [assumption|]. intros th' [->|Hin]%elem_of_cons;
             [congruence|auto].
      * left. split; [assumption|]. intros th' [->|Hin]%elem_of_cons;
          [congruence|auto].
    + right. exists (S j), th'.
      split; [exact Hj|]. split; [lia|]. split; [assumption|].
      intros [|j'] th'' Hlt Hj'; [lia|]. simpl in Hj'.
      apply (Hlast j' th''); [lia|assumption].
Qed.

(** ** The claims *)

(** C1. [clean_int] is meant to return, for every text, the natural number
    written by the decimal digits of the text. On the text "P1" followed
    by a superscript two it does not: [isdigit] keeps the superscript
    along with the "1", the conversion to [int] rejects it, and the call
    raises [ValueError]. *)
Theorem clean_int_raises_on_superscript :
  Str.filter Str.isdigit ("P1" +:+ sup2) = "1" +:+ sup2 /\
  Str.int ("1" +:+ sup2) = Raise ValueError /\
  clean_int (Some ("P1" +:+ sup2)) = Raise ValueError.
Proof. repeat split. Qed.

(** C2. When the column map detected on a page lacks one of pos, driver
    and pts, [fetch_standings] returns [None], so that there are no
    records, and [main] exits with code 1 and leaves the output file as it
    was. Conversely, whenever [fetch_standings] returns a list, [main]
    exits with code 0 after writing the file: the list itself, or the
    fallback list when the list is empty. The exit code is 0 in that case
    only, and otherwise it is 1 and the file is untouched. *)
Theorem exit_contract (roster : list Roster.entry) (resp : response)
    (fs : option (list Standing.t)) :
  (forall header_row tbody k,
     table_parts resp = Some (header_row, tbody) ->
     k ∈ required ->
     detect_columns header_row !! k = None ->
     fetch_standings roster resp = Ok None /\
     main roster resp fs = (1, fs)) /\
  (forall standings,
     fetch_standings roster resp = Ok (Some standings) ->
     main roster resp fs =
     (0, Some (if (length standings =? 0)%nat
               then build_preseason_standings roster else standings))) /\
  ((main roster resp fs).1 = 0 <->
     exists standings, fetch_standings roster resp = Ok (Some standings)) /\
  ((main roster resp fs).1 <> 0 ->
     (main roster resp fs).1 = 1 /\ (main roster resp fs).2 = fs).
Proof.
  split; [|split; [|split]].
  - intros header_row tbody k Hparts Hk Hnone.
    assert (fetch_standings roster resp = Ok None) as Hf.
    { rewrite fetch_standings_parts, Hparts.
      destruct (missing (detect_columns header_row)) eqn:Hm; [|reflexivity].
      exfalso. pose proof (proj1 (missing_nil _) Hm k Hk) as [i Hi].
      congruence. }
    split; [assumption|]. rewrite main_of_fetch, Hf. reflexivity.
  - intros standings Hf. rewrite main_of_fetch, Hf.
    destruct standings; reflexivity.
  - rewrite main_of_fetch.
    destruct (fetch_standings roster resp) as [[[|r s]|]|e]; simpl;
      split; intros H; try discriminate; eauto;
      destruct H as [? H]; discriminate.
  - rewrite main_of_fetch.
    destruct (fetch_standings roster resp) as [[[|r s]|]|e]; simpl;
      intros H; try (exfalso; apply H; reflexivity); split; reflexivity.
Qed.

Lemma exit_contract_witness :
  (fetch_standings DRIVER_ROSTER page_no_points = Ok None /\
   main DRIVER_ROSTER page_no_points None = (1, None)) /\
  main DRIVER_ROSTER scenario_B None =
    (0, Some (build_preseason_standings DRIVER_ROSTER)).
Proof.
  destruct (exit_contract DRIVER_ROSTER page_no_points None) as [Hfail _].
  destruct (exit_contract DRIVER_ROSTER scenario_B None) as [_ [Hok _]].
  split.
  - apply (Hfail (tr [th "Pos"; th "Driver"; th "Team"])
                 (Tag "tbody" [tr [td "1"; td "Max Verstappen"; td "Red Bull Racing"]])
                 "pts").
    + reflexivity.
    + unfold required. repeat constructor.
    + vm_compute. reflexivity.
  - apply (Hok []). vm_compute. reflexivity.
Defined.

(** C3. A table body in which a row has exactly one cell is meant to give
    the empty result, and then the fallback list. On the page whose first
    row carries a superscript two in its position cell and whose second
    row is the single-cell placeholder, the first row raises [ValueError]
    in [clean_int], the placeholder is never reached, and [main] ends with
    code 1 without writing anything. *)
Theorem placeholder_not_reached :
  find_all ["tr"] (Tag "tbody"
    [tr [td ("1" +:+ sup2); td "Max Verstappen"; td "25"];
     tr [td "No results available"]])
  = [tr [td ("1" +:+ sup2); td "Max Verstappen"; td "25"];
     tr [td "No results available"]] /\
  length (find_all ["td"; "th"] (tr [td "No results available"])) = 1%nat /\
  fetch_standings DRIVER_ROSTER page_footnote_then_placeholder = Raise ValueError /\
  main DRIVER_ROSTER page_footnote_then_placeholder None = (1, None).
Proof. repeat split. Qed.

(** C4. The fallback list has one record per roster entry, in roster
    order; the record at the 0-based position [i] has place [i + 1], zero
    points, wins and poles, the entry's own first and last name joined by
    one space, the entry's number, team and car, and the fixed odds, whose
    keys are exactly bet365, sportsbet and dabble, each mapped to "0". *)
Theorem build_preseason_standings_spec (roster : list Roster.entry) :
  length (build_preseason_standings roster) = length roster /\
  (forall i d, roster !! i = Some d ->
     build_preseason_standings roster !! i =
     Some {| Standing.place := Z.of_nat i + 1;
             Standing.number := Roster.number d;
             Standing.team := Roster.team d;
             Standing.name := Roster.first d +:+ " " +:+ Roster.last d;
             Standing.car := Roster.car d;
             Standing.poles := 0;
             Standing.wins := 0;
             Standing.points := 0;
             Standing.odds :=
               [("bet365", "0"); ("sportsbet", "0"); ("dabble", "0")] |}).
Proof.
  unfold build_preseason_standings. split; [apply preseason_from_length|].
  intros i d H. rewrite (preseason_from_lookup _ 0 i d H). reflexivity.
Qed.

Lemma build_preseason_standings_witness :
  length (build_preseason_standings DRIVER_ROSTER) = 22%nat /\
  build_preseason_standings DRIVER_ROSTER !! 18%nat =
    Some {| Standing.place := 19;
            Standing.number := 1;
            Standing.team := "Red Bull Racing";
            Standing.name := "Max Verstappen";
            Standing.car := "Red Bull RB22";
            Standing.poles := 0;
            Standing.wins := 0;
            Standing.points := 0;
            Standing.odds :=
              [("bet365", "0"); ("sportsbet", "0"); ("dabble", "0")] |}.
Proof.
  destruct (build_preseason_standings_spec DRIVER_ROSTER) as [Hlen Hrec].
  split; [exact Hlen|]. exact (Hrec 18%nat verstappen eq_refl).
Defined.

(** C5, as stated, fails: the header cell "Pole Position" contains the
    keyword of the poles field, yet the map has no poles field, because
    "pos" is tested first and the cell is taken as the position column. *)
Lemma detect_columns_first_keyword_only :
  ~ (forall header_row f,
       f ∈ dom (detect_columns header_row) <->
       keyword_appears f (header_labels header_row)).
Proof.
  intros H. destruct (H (tr [th "Pole Position"]) "poles") as [_ Hdom].
  assert (keyword_appears "poles" (header_labels (tr [th "Pole Position"]))) as Ha.
  { exists "pole", "pole position". repeat split.
    - unfold keyword_table. repeat constructor.
    - vm_compute. constructor. }
  apply Hdom, elem_of_dom in Ha. vm_compute in Ha.
  destruct Ha as [x Hx]. discriminate.
Qed.

(** C5, amended. The column map contains exactly the fields selected by
    some header cell, where a cell selects the field of the first keyword,
    in the order of the table, that its lower-cased text contains. Hence
    two header rows whose labels are permutations of each other give the
    same set of fields. A field is mapped to the position of the last cell
    that selects it, and a cell that contains no keyword leaves the map
    unchanged. *)
Theorem detect_columns_selected_fields :
  (forall header_row f,
     f ∈ dom (detect_columns header_row) <->
     exists l, l ∈ header_labels header_row /\ selected_field l = Some f) /\
  (forall row1 row2,
     header_labels row1 ≡ₚ header_labels row2 ->
     dom (detect_columns row1) = dom (detect_columns row2)) /\
  (forall header_row f i,
     detect_columns header_row !! f = Some i ->
     exists l, header_labels header_row !! i = Some l /\
       selected_field l = Some f /\
       forall j l', (i < j)%nat -> header_labels header_row !! j = Some l' ->
         selected_field l' <> Some f) /\
  (forall cols i th,
     selected_field (label th) = None -> detect_column cols i th = cols).
Proof.
  assert (forall header_row f,
     f ∈ dom (detect_columns header_row) <->
     exists l, l ∈ header_labels header_row /\ selected_field l = Some f) as Hdom.
  { intros header_row f. unfold detect_columns, header_labels.
    rewrite detect_from_dom, dom_empty_L. split.
    - intros [H|(th & Hin & Hsel)]; [apply elem_of_empty in H as []|].
      exists (label th). split; [|assumption].
      apply list_elem_of_fmap. eauto.
    - intros (l & Hin & Hsel).
      apply list_elem_of_fmap in Hin as (th & -> & Hin). eauto. }
  split; [exact Hdom|]. split; [|split].
  - intros row1 row2 Hperm. apply set_eq. intros f. rewrite !Hdom.
    split; intros (l & Hin & Hsel); exists l; split; try assumption.
    + rewrite <- Hperm. assumption.
    + rewrite Hperm. assumption.
  - intros header_row f i H. unfold detect_columns in H.
    apply detect_from_lookup in H as [[Hc _]|(j & th & Hj & -> & Hsel & Hlast)];
      [rewrite lookup_empty in Hc; discriminate|].
    exists (label th). unfold header_labels. simpl.
    rewrite list_lookup_fmap, Hj. repeat split; [assumption|].
    intros j' l' Hlt Hj'. rewrite list_lookup_fmap in Hj'.
    destruct (find_all ["th"] header_row !! j') as [th'|] eqn:E; [|discriminate].
    injection Hj' as <-. eapply Hlast; eassumption.
  - intros cols i th H. rewrite detect_column_selected, H. reflexivity.
Qed.

Lemma detect_columns_selected_fields_witness :
  dom (detect_columns (tr [th "Pts"; th "Driver"; th "Pole Position"]))
  = dom (detect_columns (tr [th "Driver"; th "Pole Position"; th "Pts"])) /\
  detect_column ∅ 3 (th "Nationality ") = {["nationality" := 3%nat]} /\
  detect_column ∅ 3 (th "Laps") = ∅.
Proof.
  destruct detect_columns_selected_fields as (_ & Hperm & _ & Hnone).
  split; [|split].
  - apply Hperm. vm_compute.
    apply (Permutation_cons_append ["driver"; "pole position"] "pts").
  - vm_compute. reflexivity.
  - apply Hnone. vm_compute. reflexivity.
Defined.

(** C6. Looking up a pair of names gives the same result as looking up
    their trimmed, lower-cased forms. The result is decided by equality of
    the normalised key with the key of a roster entry: an entry that is
    returned is in the roster and has exactly that key, and nothing is
    returned exactly when no entry has it. On the roster of the program,
    (" MAX ", " verstappen ") and ("Max", "Verstappen") both give the
    Verstappen entry. *)
Theorem lookup_driver_normalised (roster : list Roster.entry)
    (first_name last_name : string) :
  let key := Str.lower (Str.strip first_name) +:+ " "
             +:+ Str.lower (Str.strip last_name) in
  lookup_driver roster first_name last_name =
    lookup_driver roster (Str.lower (Str.strip first_name))
                         (Str.lower (Str.strip last_name)) /\
  (forall d, lookup_driver roster first_name last_name = Some d ->
     d ∈ roster /\ roster_key d = key) /\
  (lookup_driver roster first_name last_name = None <->
     forall d, d ∈ roster -> roster_key d <> key) /\
  lookup_driver DRIVER_ROSTER " MAX " " verstappen " =
    lookup_driver DRIVER_ROSTER "Max" "Verstappen" /\
  lookup_driver DRIVER_ROSTER "Max" "Verstappen" =
    Some (Roster.Build_entry "Max" "Verstappen" 1
            "Red Bull Racing" "Red Bull RB22").
Proof.
  intros key. unfold lookup_driver. rewrite !normalise_idem. fold key.
  split; [reflexivity|]. split; [|split; [|split]].
  - intros d. apply roster_by_name_some.
  - apply roster_by_name_none.
  - vm_compute. reflexivity.
  - vm_compute. reflexivity.
Qed.

Lemma lookup_driver_normalised_witness :
  lookup_driver DRIVER_ROSTER " LEWIS " "hamilton  " =
    lookup_driver DRIVER_ROSTER "lewis" "hamilton" /\
  roster_key (Roster.Build_entry "Lewis" "Hamilton" 44 "Ferrari" "Ferrari SF-26")
    = "lewis hamilton" /\
  lookup_driver DRIVER_ROSTER "Lewis" "Hamilto" = None.
Proof.
  destruct (lookup_driver_normalised DRIVER_ROSTER " LEWIS " "hamilton  ")
    as (Heq & Hsome & _).
  split; [exact Heq|]. split.
  - apply (Hsome (Roster.Build_entry "Lewis" "Hamilton" 44 "Ferrari" "Ferrari SF-26")).
    vm_compute. reflexivity.
  - vm_compute. reflexivity.
Defined.

(** C7. A row whose name is not in the roster is meant to be dropped
    without an error. On the page whose first row names a driver unknown
    to the roster and carries a superscript two in its position cell, the
    position is cleaned before the name is looked up, [clean_int] raises
    [ValueError], and the run aborts with code 1 although an ordinary row
    follows. *)
Theorem unknown_driver_row_aborts :
  let cols := detect_columns (tr header_short) in
  let row := tr [td ("1" +:+ sup2); td "Juan Fangio"; td "25"] in
  let cells := find_all ["td"; "th"] row in
  driver_name cols cells = ("Juan", "Fangio") /\
  lookup_driver DRIVER_ROSTER "Juan" "Fangio" = None /\
  interpret_row DRIVER_ROSTER cols [] row = Raise ValueError /\
  fetch_standings DRIVER_ROSTER page_unknown_with_footnote = Raise ValueError /\
  main DRIVER_ROSTER page_unknown_with_footnote None = (1, None).
Proof. vm_compute. repeat split. Qed.

(** C8. The round trip [clean_int(str(clean_int(x)))], evaluated at a text
    that holds a superscript two, raises [ValueError] in its inner call,
    and so does the right-hand side [clean_int(x)]: the comparison yields
    no truth value. The two literal instances of the claim hold. *)
Theorem clean_int_round_trip_raises :
  (let* n := clean_int (Some sup2) in clean_int (Some (Str.of_int n)))
    = Raise ValueError /\
  clean_int (Some sup2) = Raise ValueError /\
  clean_int (Some "") = Ok 0 /\
  clean_int (Some "P12.") = Ok 12.
Proof. repeat split. Qed.

(** C9. Every record of the list that [main] writes has its number, team
    and car from one and the same roster entry: on the live path the entry
    that [lookup_driver] returned for the names the record's name is built
    from, on the fallback path the entry whose own name the record has. *)
Theorem records_from_one_entry (roster : list Roster.entry) (resp : response)
    (fs : option (list Standing.t)) (data : list Standing.t) :
  main roster resp fs = (0, Some data) ->
  forall r, r ∈ data ->
    exists d, d ∈ roster /\
      Standing.number r = Roster.number d /\
      Standing.team r = Roster.team d /\
      Standing.car r = Roster.car d /\
      ((exists first_name last_name,
          lookup_driver roster first_name last_name = Some d /\
          Standing.name r = Str.strip (first_name +:+ " " +:+ last_name)) \/
       Standing.name r = Roster.first d +:+ " " +:+ Roster.last d).
Proof.
  rewrite main_of_fetch. intros Hmain r Hr.
  destruct (fetch_standings roster resp) as [[standings|]|] eqn:Hf;
    [|discriminate|discriminate].
  destruct standings as [|r0 s].
  - injection Hmain as <-.
    pose proof (build_preseason_standings_fallback roster) as Hall.
    rewrite Forall_forall in Hall.
    destruct (Hall r Hr) as (d & Hd & Hname & Hn & Ht & Hc).
    exists d. repeat split; try assumption. right. assumption.
  - injection Hmain as <-.
    pose proof (fetch_standings_live _ _ _ Hf) as Hall.
    rewrite Forall_forall in Hall.
    destruct (Hall r Hr) as (fn & ln & d & Hd & Hname & Hn & Ht & Hc).
    exists d. repeat split; try assumption.
    + eapply lookup_driver_in, Hd.
    + left. exists fn, ln. split; assumption.
Qed.

Lemma records_from_one_entry_witness :
  main DRIVER_ROSTER scenario_A None = (0, Some [scenario_A_record]) /\
  exists d, d ∈ DRIVER_ROSTER /\
    Standing.number scenario_A_record = Roster.number d /\
    Standing.team scenario_A_record = Roster.team d /\
    Standing.car scenario_A_record = Roster.car d /\
    ((exists first_name last_name,
        lookup_driver DRIVER_ROSTER first_name last_name = Some d /\
        Standing.name scenario_A_record
          = Str.strip (first_name +:+ " " +:+ last_name)) \/
     Standing.name scenario_A_record
       = Roster.first d +:+ " " +:+ Roster.last d).
Proof.
  assert (main DRIVER_ROSTER scenario_A None = (0, Some [scenario_A_record]))
    as Hmain by (vm_compute; reflexivity).
  split; [exact Hmain|].
  apply (records_from_one_entry DRIVER_ROSTER scenario_A None
           [scenario_A_record] Hmain scenario_A_record).
  constructor.
Defined.

(** C10. When the rows before a single-cell row have been interpreted into
    the records [acc], the single-cell row makes the interpreter return
    the empty list and not [acc]; [fetch_standings] returns the empty
    list, and [main] writes the fallback list in place of [acc]. *)
Theorem placeholder_discards_records (roster : list Roster.entry)
    (resp : response) (header_row tbody : node)
    (pre : list node) (row : node) (post : list node)
    (acc : list Standing.t) (fs : option (list Standing.t)) :
  table_parts resp = Some (header_row, tbody) ->
  missing (detect_columns header_row) = [] ->
  find_all ["tr"] tbody = pre ++ row :: post ->
  run_rows roster (detect_columns header_row) pre [] = Ok (Next acc) ->
  length (find_all ["td"; "th"] row) = 1%nat ->
  interpret_rows roster (detect_columns header_row) (pre ++ row :: post) = Ok [] /\
  fetch_standings roster resp = Ok (Some []) /\
  main roster resp fs = (0, Some (build_preseason_standings roster)).
Proof.
  intros Hparts Hm Hrows Hpre Hrow.
  pose proof (run_rows_sentinel roster _ pre row post acc Hpre Hrow) as Hi.
  assert (fetch_standings roster resp = Ok (Some [])) as Hf.
  { rewrite fetch_standings_parts, Hparts, Hm, Hrows, Hi. reflexivity. }
  repeat split; [assumption|assumption|].
  rewrite main_of_fetch, Hf. reflexivity.
Qed.

Lemma placeholder_discards_records_witness :
  run_rows DRIVER_ROSTER (detect_columns (tr header_short))
    [tr [td "1"; td "Max Verstappen"; td "25"]] []
  = Ok (Next [scenario_A_record]) /\
  fetch_standings DRIVER_ROSTER page_row_then_placeholder = Ok (Some []) /\
  main DRIVER_ROSTER page_row_then_placeholder None =
    (0, Some (build_preseason_standings DRIVER_ROSTER)).
Proof.
  assert (run_rows DRIVER_ROSTER (detect_columns (tr header_short))
            [tr [td "1"; td "Max Verstappen"; td "25"]] []
          = Ok (Next [scenario_A_record])) as Hpre
    by (vm_compute; reflexivity).
  split; [exact Hpre|].
  refine (proj2 (placeholder_discards_records DRIVER_ROSTER
            page_row_then_placeholder (tr header_short)
            (Tag "tbody" [tr [td "1"; td "Max Verstappen"; td "25"];
                          tr [td "No results available"]])
            [tr [td "1"; td "Max Verstappen"; td "25"]]
            (tr [td "No results available"]) [] _ None
            eq_refl _ eq_refl Hpre eq_refl)).
  vm_compute. reflexivity.
Defined.

(** * Part III: further properties of the code *)

(** ** [clean_int] *)

Lemma forallb_filter_stray text :
  Str.forallb Str.isdecimal (Str.filter Str.isdigit text)
  = negb (Str.existsb stray_digit text).
Proof.
  induction text as [|c t IH]; simpl; [reflexivity|].
  unfold stray_digit at 1, Str.isdigit.
  destruct (Str.isdecimal c) eqn:Hd; simpl.
  - rewrite Hd. simpl. exact IH.
  - destruct ((Str.code c =? 178)%nat || (Str.code c =? 179)%nat
              || (Str.code c =? 185)%nat); simpl.
    + rewrite Hd. reflexivity.
    + exact IH.
Qed.



(** X2. Whenever [clean_int] returns [n] for a text, it returns [n] again
    for the decimal string of [n]. *)
Theorem clean_int_round_trip (text : option string) (n : Z) :
  clean_int text = Ok n -> clean_int (Some (Str.of_int n)) = Ok n.
Proof. intros H. apply clean_int_of_int. eapply clean_int_nonneg, H. Qed.

Lemma clean_int_round_trip_witness :
  clean_int (Some (Str.of_int 12)) = Ok 12.
Proof.
  apply (clean_int_round_trip (Some "P12.") 12). vm_compute. reflexivity.
Defined.

Lemma filter_app p s t :
  Str.filter p (s +:+ t) = Str.filter p s +:+ Str.filter p t.
Proof.
  induction s as [|c s IH]; simpl; [reflexivity|].
  destruct (p c); simpl; rewrite IH; reflexivity.
Qed.

Lemma append_empty_r s : s +:+ "" = s.
Proof.
  induction s as [|c s IH]; [reflexivity|].
  change (String c (s +:+ "") = String c s). rewrite IH. reflexivity.
Qed.

Lemma is_empty_app s t :
  Str.is_empty (s +:+ t) = Str.is_empty s && Str.is_empty t.
Proof. destruct s; reflexivity. Qed.

Lemma int_acc_app u v : forall acc,
  Str.int_acc acc (u +:+ v) = (let* x := Str.int_acc acc u in Str.int_acc x v).
Proof.
  induction u as [|c u IH]; intros acc; simpl; [reflexivity|].
  destruct (Str.isdecimal c); [apply IH|reflexivity].
Qed.

Lemma int_acc_shift v : forall acc n acc',
  Str.int_acc acc v = Ok n ->
  Str.int_acc acc' v = Ok ((acc' - acc) * 10 ^ Z.of_nat (String.length v) + n).
Proof.
  induction v as [|c v IH]; intros acc n acc'.
  - simpl. intros [= <-]. f_equal. lia.
  - cbn [Str.int_acc String.length]. destruct (Str.isdecimal c); [|discriminate].
    intros H. rewrite (IH _ _ (10 * acc' + Str.digit_value c) H).
    f_equal. rewrite Nat2Z.inj_succ, Z.pow_succ_r by lia. lia.
Qed.

Lemma clean_int_digits text :
  clean_int (Some text) =
  if Str.is_empty (Str.filter Str.isdigit text) then Ok 0
  else Str.int_acc 0 (Str.filter Str.isdigit text).
Proof.
  unfold clean_int, Str.int. simpl.
  destruct (Str.filter Str.isdigit text); reflexivity.
Qed.



(** ** [lookup_driver] *)

Lemma find_none_intro {A} (p : A -> bool) (l : list A) :
  (forall x, x ∈ l -> p x = false) -> List.find p l = None.
Proof.
  induction l as [|x l IH]; intros H; simpl; [reflexivity|].
  rewrite (H x) by constructor. apply IH. intros y Hy. apply H.
  constructor. assumption.
Qed.

(** X4. When several roster entries have the key that is looked up, the
    one that comes last in the roster is returned. *)
Theorem lookup_driver_last_wins (before : list Roster.entry) (d : Roster.entry)
    (after : list Roster.entry) (first_name last_name : string) :
  roster_key d = Str.lower (Str.strip first_name) +:+ " "
                 +:+ Str.lower (Str.strip last_name) ->
  (forall d', d' ∈ after ->
     roster_key d' <> Str.lower (Str.strip first_name) +:+ " "
                      +:+ Str.lower (Str.strip last_name)) ->
  lookup_driver (before ++ d :: after) first_name last_name = Some d.
Proof.
  intros Hd Hafter. unfold lookup_driver.
  rewrite roster_by_name_lookup, rev_app_distr. simpl.
  rewrite <- app_assoc, find_app.
  rewrite find_none_intro.
  - simpl. rewrite bool_decide_eq_true_2 by assumption. reflexivity.
  - intros x Hx. apply bool_decide_eq_false_2. apply Hafter.
    apply list_elem_of_In. apply in_rev. apply list_elem_of_In. assumption.
Qed.

Lemma lookup_driver_last_wins_witness :
  lookup_driver roster_twice "Max" "Verstappen"
  = Some (Roster.Build_entry "MAX" "VERSTAPPEN" 1 "Red Bull Racing" "Red Bull RB22").
Proof.
  apply (lookup_driver_last_wins
           [Roster.Build_entry "Max" "Verstappen" 33 "Red Bull Racing" "Red Bull RB16";
            Roster.Build_entry "Lando" "Norris" 4 "McLaren" "McLaren MCL40"]
           (Roster.Build_entry "MAX" "VERSTAPPEN" 1 "Red Bull Racing" "Red Bull RB22")
           [] "Max" "Verstappen").
  - vm_compute. reflexivity.
  - intros d' Hd'. apply elem_of_nil in Hd'. destruct Hd'.
Defined.



(** ** [detect_columns] *)

Lemma selected_field_semantic l f :
  selected_field l = Some f -> f ∈ semantic_fields.
Proof.
  unfold selected_field, keyword_table, semantic_fields. simpl.
  repeat (destruct (Str.contains _ l); simpl;
          [intros [= <-]; repeat constructor|]).
  discriminate.
Qed.

(** X6. Every entry of the column map has one of the seven field names as
    its key and the position of a header cell as its value. *)
Theorem detect_columns_range (header_row : node) (f : string) (i : nat) :
  detect_columns header_row !! f = Some i ->
  f ∈ semantic_fields /\ (i < length (find_all ["th"] header_row))%nat.
Proof.
  intros H. unfold detect_columns in H.
  apply detect_from_lookup in H as [[Hc _]|(j & th & Hj & -> & Hsel & _)];
    [rewrite lookup_empty in Hc; discriminate|].
  split; [eapply selected_field_semantic, Hsel|].
  apply lookup_lt_Some in Hj. simpl. exact Hj.
Qed.

Lemma detect_columns_range_witness :
  "pts" ∈ semantic_fields /\ (4 < length (find_all ["th"] (tr header_A)))%nat.
Proof.
  apply (detect_columns_range (tr header_A) "pts" 4). vm_compute. reflexivity.
Defined.

(** ** [fetch_standings] and [main] on pages without the table structure *)

Lemma malformed_no_parts resp : malformed resp -> table_parts resp = None.
Proof.
  intros [->|(soup & -> & H)]; [reflexivity|]. simpl.
  destruct H as [->|(table & -> & H)]; [reflexivity|]. simpl.
  destruct H as [->|[H|(thead & -> & H)]]; [reflexivity| |].
  - destruct (find "thead" table); simpl; [rewrite H|]; reflexivity.
  - simpl. destruct (find "tbody" table); simpl; [rewrite H|]; reflexivity.
Qed.

(** X7. When the request fails, or the page has no table, or the table has
    no head or no body, or the head has no row, [fetch_standings] returns
    [None], and [main] ends with code 1 and leaves the output file as it
    was. *)
Theorem malformed_page_aborts (roster : list Roster.entry) (resp : response)
    (fs : option (list Standing.t)) :
  malformed resp ->
  fetch_standings roster resp = Ok None /\ main roster resp fs = (1, fs).
Proof.
  intros H. apply malformed_no_parts in H.
  assert (fetch_standings roster resp = Ok None) as Hf
    by (rewrite fetch_standings_parts, H; reflexivity).
  split; [exact Hf|]. rewrite main_of_fetch, Hf. reflexivity.
Qed.

Lemma malformed_page_aborts_witness :
  fetch_standings DRIVER_ROSTER page_no_tbody = Ok None /\
  main DRIVER_ROSTER page_no_tbody (Some [scenario_A_record])
  = (1, Some [scenario_A_record]).
Proof.
  apply (malformed_page_aborts DRIVER_ROSTER page_no_tbody).
  right. eexists. split; [reflexivity|].
  right. eexists. split; [vm_compute; reflexivity|].
  right. left. vm_compute. reflexivity.
Defined.

(** ** The row loop *)

Section Rows.

Variable roster : list Roster.entry.

(** What a row does to the list does not depend on the list. *)
Lemma interpret_row_acc cols acc row :
  interpret_row roster cols acc row =
  match interpret_row roster cols [] row with
  | Ok (Next new) => Ok (Next (acc ++ new))
  | Ok (Return v) => Ok (Return v)
  | Raise e => Raise e
  end.
Proof.
  unfold interpret_row.
  destruct (length (find_all ["td"; "th"] row) =? 0)%nat;
    [rewrite app_nil_r; reflexivity|].
  destruct (length (find_all ["td"; "th"] row) =? 1)%nat; [reflexivity|].
  destruct (clean_int (Some (cell_text cols _ "pos"))); simpl; [|reflexivity].
  destruct (driver_name cols _) as [first_name last_name].
  destruct (lookup_driver roster first_name last_name);
    [|rewrite app_nil_r; reflexivity].
  destruct (clean_int (Some (cell_text cols _ "pts"))); simpl; [|reflexivity].
  destruct (clean_int (Some (cell_text cols _ "wins"))); simpl; [|reflexivity].
  destruct (clean_int (Some (cell_text cols _ "poles"))); simpl; reflexivity.
Qed.

(** A row adds nothing, or one record, or returns the empty list. *)
Lemma interpret_row_shape cols row f :
  interpret_row roster cols [] row = Ok f ->
  f = Next [] \/ f = Return [] \/
  exists r d, f = Next [r] /\ merged roster cols row r d.
Proof.
  unfold interpret_row, merged. intros H.
  destruct (length (find_all ["td"; "th"] row) =? 0)%nat;
    [injection H as <-; auto|].
  destruct (length (find_all ["td"; "th"] row) =? 1)%nat;
    [injection H as <-; auto|].
  destruct (clean_int (Some (cell_text cols _ "pos"))) as [place|] eqn:E1;
    simpl in H; [|discriminate].
  destruct (driver_name cols _) as [first_name last_name].
  destruct (lookup_driver roster first_name last_name) as [d|] eqn:Hd;
    [|injection H as <-; auto].
  destruct (clean_int (Some (cell_text cols _ "pts"))) as [points|] eqn:E2;
    simpl in H; [|discriminate].
  destruct (clean_int (Some (cell_text cols _ "wins"))) as [wins|] eqn:E3;
    simpl in H; [|discriminate].
  destruct (clean_int (Some (cell_text cols _ "poles"))) as [poles|] eqn:E4;
    simpl in H; [|discriminate].
  injection H as <-. right. right. eexists. exists d.
  split; [reflexivity|]. simpl. repeat split; assumption.
Qed.

Lemma row_yields_merged cols row r :
  row_yields roster cols row r -> exists d, merged roster cols row r d.
Proof.
  intros H. apply interpret_row_shape in H as [H|[H|(r' & d & H & Hm)]];
    try discriminate. injection H as ->. eauto.
Qed.

Lemma interpret_row_appended cols acc row r :
  interpret_row roster cols acc row = Ok (Next (acc ++ [r])) ->
  row_yields roster cols row r.
Proof.
  rewrite interpret_row_acc. unfold row_yields.
  destruct (interpret_row roster cols [] row) as [[new|v]|e]; try discriminate.
  intros [= H]. apply app_inv_head in H. subst new. reflexivity.
Qed.

(** The loop adds to the list, for some of the rows and in their order,
    the record that the row yields; and when the function returns from
    within the loop, it returns the empty list. *)
Lemma run_rows_sub cols rows : forall acc f,
  run_rows roster cols rows acc = Ok f ->
  match f with
  | Next acc' =>
      exists rows' new, acc' = acc ++ new /\ sublist rows' rows /\
        Forall2 (row_yields roster cols) rows' new
  | Return v => v = []
  end.
Proof.
  induction rows as [|row rows IH]; intros acc f; simpl.
  - intros [= <-]. exists [], []. rewrite app_nil_r.
    repeat split; constructor.
  - rewrite interpret_row_acc.
    destruct (interpret_row roster cols [] row) as [g|e] eqn:E; [|discriminate].
    pose proof (interpret_row_shape _ _ _ E) as [->|[->|(r & d & -> & _)]];
      simpl.
    + rewrite app_nil_r. intros H. apply IH in H. destruct f; [|assumption].
      destruct H as (rows' & new & -> & Hsub & Hall).
      exists rows', new. repeat split; [constructor|]; assumption.
    + intros [= <-]. reflexivity.
    + intros H. apply IH in H. destruct f; [|assumption].
      destruct H as (rows' & new & -> & Hsub & Hall).
      exists (row :: rows'), (r :: new). rewrite <- app_assoc.
      repeat split; constructor; assumption.
Qed.

Lemma fetch_standings_rows resp s :
  fetch_standings roster resp = Ok (Some s) ->
  exists header_row tbody rows',
    table_parts resp = Some (header_row, tbody) /\
    missing (detect_columns header_row) = [] /\
    sublist rows' (find_all ["tr"] tbody) /\
    Forall2 (row_yields roster (detect_columns header_row)) rows' s.
Proof.
  rewrite fetch_standings_parts.
  destruct (table_parts resp) as [[header_row tbody]|]; [|discriminate].
  destruct (missing _) eqn:Hm; [|discriminate].
  unfold interpret_rows.
  destruct (run_rows roster _ _ []) as [f|] eqn:Hrun; simpl; [|discriminate].
  apply run_rows_sub in Hrun.
  destruct f as [acc|v]; intros [= <-]; exists header_row, tbody.
  - destruct Hrun as (rows' & new & -> & Hsub & Hall).
    exists rows'. split; [reflexivity|]. split; [exact Hm|].
    split; assumption.
  - subst v. exists []. split; [reflexivity|]. split; [exact Hm|].
    split; [apply sublist_nil_l|constructor].
Qed.

End Rows.

Lemma Forall2_right {A B} (P : A -> B -> Prop) (Q : B -> Prop) l k :
  Forall2 P l k -> (forall x y, P x y -> Q y) -> Forall Q k.
Proof. induction 1; intros HPQ; constructor; eauto. Qed.

Lemma cell_text_unreadable cols cells k :
  unreadable cols cells k -> cell_text cols cells k = "".
Proof.
  unfold unreadable, cell_text. destruct (cols !! k) as [idx|]; [|reflexivity].
  intros H. apply Nat.leb_le in H. rewrite H. reflexivity.
Qed.

(** X8. In the record that a row adds, the place, the points, the wins and
    the poles are 0 whenever the column in question is not in the map or
    lies beyond the cells of the row. *)
Theorem unreadable_stat_is_zero (roster : list Roster.entry)
    (cols : gmap string nat) (acc : list Standing.t) (row : node)
    (r : Standing.t) :
  interpret_row roster cols acc row = Ok (Next (acc ++ [r])) ->
  let cells := find_all ["td"; "th"] row in
  (unreadable cols cells "pos" -> Standing.place r = 0) /\
  (unreadable cols cells "pts" -> Standing.points r = 0) /\
  (unreadable cols cells "wins" -> Standing.wins r = 0) /\
  (unreadable cols cells "poles" -> Standing.poles r = 0).
Proof.
  intros H cells. apply interpret_row_appended, row_yields_merged in H.
  destruct H as (d & _ & H1 & H2 & H3 & H4 & _). fold cells in H1, H2, H3, H4.
  assert (forall k n, unreadable cols cells k ->
            clean_int (Some (cell_text cols cells k)) = Ok n -> n = 0) as Hz.
  { intros k n Hu Hn. rewrite (cell_text_unreadable _ _ _ Hu) in Hn.
    change (Ok 0 = Ok n) in Hn. congruence. }
  repeat split; intros Hu; eapply Hz; eassumption.
Qed.

Lemma unreadable_stat_is_zero_witness :
  Standing.points norris_record = 0 /\ Standing.wins norris_record = 0.
Proof.
  pose proof (unreadable_stat_is_zero DRIVER_ROSTER
                (detect_columns (tr header_A)) [scenario_A_record]
                (tr [td "2"; td "lando NORRIS"]) norris_record) as H.
  destruct H as (_ & Hpts & Hwins & _); [vm_compute; reflexivity|].
  split; [apply Hpts|apply Hwins]; vm_compute; [lia|exact I].
Defined.

(** X9. The records that [fetch_standings] returns come from rows of the
    table body, one record per row at most and in the order of the rows:
    there is a sublist of the rows whose members yield the records one by
    one. In particular there are no more records than rows. *)
Theorem records_follow_rows (roster : list Roster.entry) (resp : response)
    (s : list Standing.t) :
  fetch_standings roster resp = Ok (Some s) ->
  exists header_row tbody rows',
    table_parts resp = Some (header_row, tbody) /\
    sublist rows' (find_all ["tr"] tbody) /\
    Forall2 (fun row r =>
               interpret_row roster (detect_columns header_row) [] row
               = Ok (Next [r])) rows' s /\
    (length s <= length (find_all ["tr"] tbody))%nat.
Proof.
  intros H. apply fetch_standings_rows in H
    as (header_row & tbody & rows' & Hparts & _ & Hsub & Hall).
  exists header_row, tbody, rows'. repeat split; try assumption.
  rewrite <- (Forall2_length _ _ _ Hall). apply sublist_length, Hsub.
Qed.

Lemma records_follow_rows_witness :
  exists header_row tbody rows',
    table_parts page_two_rows = Some (header_row, tbody) /\
    sublist rows' (find_all ["tr"] tbody) /\
    Forall2 (fun row r =>
               interpret_row DRIVER_ROSTER (detect_columns header_row) [] row
               = Ok (Next [r])) rows' [scenario_A_record; norris_record] /\
    (length [scenario_A_record; norris_record]
     <= length (find_all ["tr"] tbody))%nat.
Proof.
  apply (records_follow_rows DRIVER_ROSTER page_two_rows).
  vm_compute. reflexivity.
Defined.

(** X10. Every record that [main] writes, on the live path and on the
    fallback path, has a place, points, wins and poles that are not
    negative, and the literal odds. *)
Theorem written_records_well_formed (roster : list Roster.entry)
    (resp : response) (fs : option (list Standing.t))
    (data : list Standing.t) :
  main roster resp fs = (0, Some data) ->
  Forall (fun r =>
            0 <= Standing.place r /\ 0 <= Standing.points r /\
            0 <= Standing.wins r /\ 0 <= Standing.poles r /\
            Standing.odds r = [("bet365", "0"); ("sportsbet", "0"); ("dabble", "0")])
         data.
Proof.
  rewrite main_of_fetch.
  destruct (fetch_standings roster resp) as [[standings|]|] eqn:Hf;
    [|discriminate|discriminate].
  destruct standings as [|r0 s]; intros [= <-].
  - apply Forall_lookup. intros k r Hk.
    destruct (roster !! k) as [d|] eqn:E.
    + unfold build_preseason_standings in Hk.
      rewrite (preseason_from_lookup _ 0 k d E) in Hk. injection Hk as <-.
      simpl. repeat split; lia.
    + apply lookup_ge_None in E. apply lookup_lt_Some in Hk.
      unfold build_preseason_standings in Hk.
      rewrite preseason_from_length in Hk. lia.
  - apply fetch_standings_rows in Hf as (hr & tbody & rows' & _ & _ & _ & Hall).
    eapply Forall2_right; [exact Hall|]. cbv beta.
    intros row r Hy. apply row_yields_merged in Hy
      as (d & _ & H1 & H2 & H3 & H4 & _ & _ & Ho).
    repeat split; try (eapply clean_int_nonneg; eassumption). exact Ho.
Qed.

Lemma written_records_well_formed_witness :
  Forall (fun r =>
            0 <= Standing.place r /\ 0 <= Standing.points r /\
            0 <= Standing.wins r /\ 0 <= Standing.poles r /\
            Standing.odds r = [("bet365", "0"); ("sportsbet", "0"); ("dabble", "0")])
         [scenario_A_record].
Proof.
  apply (written_records_well_formed DRIVER_ROSTER scenario_A None).
  vm_compute. reflexivity.
Defined.

(** X11. With a roster that is not empty, [main] never writes an empty
    list: what it writes when it exits with code 0 has a record. *)
Theorem main_writes_records (roster : list Roster.entry) (resp : response)
    (fs : option (list Standing.t)) (data : list Standing.t) :
  roster <> [] ->
  main roster resp fs = (0, Some data) ->
  data <> [].
Proof.
  intros Hne. rewrite main_of_fetch.
  destruct (fetch_standings roster resp) as [[[|r s]|]|];
    intros [= <-]; [|discriminate].
  intros Hnil. apply (f_equal length) in Hnil.
  unfold build_preseason_standings in Hnil.
  rewrite preseason_from_length in Hnil. destruct roster; [congruence|discriminate].
Qed.

Lemma main_writes_records_witness :
  build_preseason_standings DRIVER_ROSTER <> [].
Proof.
  apply (main_writes_records DRIVER_ROSTER scenario_B None).
  - discriminate.
  - vm_compute. reflexivity.
Defined.

Lemma run_rows_has_cells roster cols rows : forall acc,
  run_rows roster cols (List.filter has_cells rows) acc
  = run_rows roster cols rows acc.
Proof.
  induction rows as [|row rows IH]; intros acc; simpl; [reflexivity|].
  unfold has_cells at 1.
  destruct (length (find_all ["td"; "th"] row) =? 0)%nat eqn:E; simpl.
  - unfold interpret_row. rewrite E. simpl. apply IH.
  - destruct (interpret_row roster cols acc row) as [[acc'|v]|e]; simpl;
      [apply IH|reflexivity|reflexivity].
Qed.

(** X12. Rows without cells have no effect: the rows of a body give the
    same result, or the same exception, as the rows of the body that have
    a cell. *)
Theorem rows_without_cells_ignored (roster : list Roster.entry)
    (cols : gmap string nat) (rows : list node) :
  interpret_rows roster cols (List.filter has_cells rows)
  = interpret_rows roster cols rows.
Proof. unfold interpret_rows. rewrite run_rows_has_cells. reflexivity. Qed.

Lemma run_rows_passed_over roster cols rows : forall acc,
  Forall (passed_over roster cols) rows ->
  run_rows roster cols rows acc = Ok (Next acc).
Proof.
  induction rows as [|row rows IH]; intros acc Hall; simpl; [reflexivity|].
  inversion Hall as [|? ? Hrow Hrest]; subst.
  assert (interpret_row roster cols acc row = Ok (Next acc)) as ->.
  { destruct Hrow as [Hnil|(Hlen & (place & Hplace) & Hnone)].
    - apply interpret_row_no_cells, Hnil.
    - eapply interpret_row_unknown; eassumption. }
  simpl. apply IH, Hrest.
Qed.

(** X13. When every row of the body is passed over, because it has no
    cells or because its name is not in the roster, the result of the page
    is the empty list and [main] writes the fallback list. *)
Theorem unresolved_page_falls_back (roster : list Roster.entry)
    (resp : response) (header_row tbody : node)
    (fs : option (list Standing.t)) :
  table_parts resp = Some (header_row, tbody) ->
  missing (detect_columns header_row) = [] ->
  Forall (passed_over roster (detect_columns header_row))
         (find_all ["tr"] tbody) ->
  fetch_standings roster resp = Ok (Some []) /\
  main roster resp fs = (0, Some (build_preseason_standings roster)).
Proof.
  intros Hparts Hm Hall.
  assert (fetch_standings roster resp = Ok (Some [])) as Hf.
  { rewrite fetch_standings_parts, Hparts, Hm. unfold interpret_rows.
    rewrite (run_rows_passed_over _ _ _ [] Hall). reflexivity. }
  split; [exact Hf|]. rewrite main_of_fetch, Hf. reflexivity.
Qed.

Lemma unresolved_page_falls_back_witness :
  fetch_standings DRIVER_ROSTER page_only_unknown = Ok (Some []) /\
  main DRIVER_ROSTER page_only_unknown None
  = (0, Some (build_preseason_standings DRIVER_ROSTER)).
Proof.
  apply (unresolved_page_falls_back DRIVER_ROSTER page_only_unknown
           (tr header_short)
           (Tag "tbody" [tr [td "1"; td "Juan Fangio"; td "25"];
                         tr [];
                         tr [td "2"; td "Stirling Moss"; td "18"]])).
  - reflexivity.
  - vm_compute. reflexivity.
  - constructor; [|constructor; [|constructor; [|constructor]]].
    + right. split; [simpl; lia|]. split; [exists 1|]; vm_compute; reflexivity.
    + left. reflexivity.
    + right. split; [simpl; lia|]. split; [exists 2|]; vm_compute; reflexivity.
Defined.

(** X14. A row that raises ends the run: when the rows before it have been
    gone through and the row raises, [fetch_standings] raises, whatever
    rows follow and whatever records had been collected, and [main] ends
    with code 1 and leaves the output file as it was. *)
Theorem raising_row_aborts (roster : list Roster.entry)
    (resp : response) (header_row tbody : node)
    (pre : list node) (row : node) (post : list node)
    (acc : list Standing.t) (e : exn) (fs : option (list Standing.t)) :
  table_parts resp = Some (header_row, tbody) ->
  missing (detect_columns header_row) = [] ->
  find_all ["tr"] tbody = pre ++ row :: post ->
  run_rows roster (detect_columns header_row) pre [] = Ok (Next acc) ->
  interpret_row roster (detect_columns header_row) acc row = Raise e ->
  fetch_standings roster resp = Raise e /\
  main roster resp fs = (1, fs).
Proof.
  intros Hparts Hm Hrows Hpre Hrow.
  assert (fetch_standings roster resp = Raise e) as Hf.
  { rewrite fetch_standings_parts, Hparts, Hm, Hrows.
    rewrite (run_rows_raise roster _ pre row post acc e Hpre Hrow). reflexivity. }
  split; [exact Hf|]. rewrite main_of_fetch, Hf. reflexivity.
Qed.

Lemma raising_row_aborts_witness :
  fetch_standings DRIVER_ROSTER page_row_then_footnote = Raise ValueError /\
  main DRIVER_ROSTER page_row_then_footnote (Some [norris_record])
  = (1, Some [norris_record]).
Proof.
  apply (raising_row_aborts DRIVER_ROSTER page_row_then_footnote
           (tr header_short)
           (Tag "tbody" [tr [td "1"; td "Max Verstappen"; td "25"];
                         tr [td "2"; td "Lando Norris"; td ("18" +:+ sup2)]])
           [tr [td "1"; td "Max Verstappen"; td "25"]]
           (tr [td "2"; td "Lando Norris"; td ("18" +:+ sup2)])
           [] [scenario_A_record] ValueError);
    vm_compute; reflexivity.
Defined.

(** ** The names of a row *)

Lemma rstrip_app a b :
  Str.rstrip (a +:+ b) =
  if Str.is_empty (Str.rstrip b) then Str.rstrip a else a +:+ Str.rstrip b.
Proof.
  induction a as [|c a IH].
  - change ("" +:+ b) with b. destruct (Str.rstrip b); reflexivity.
  - change (String c a +:+ b) with (String c (a +:+ b)).
    cbn [Str.rstrip]. rewrite IH.
    destruct (Str.is_empty (Str.rstrip b)) eqn:E; [reflexivity|].
    rewrite is_empty_app, E, andb_false_r. reflexivity.
Qed.

Lemma left_trimmed_app p x :
  Str.is_empty p = false -> left_trimmed (p +:+ x) = left_trimmed p.
Proof. destruct p; [discriminate|reflexivity]. Qed.

Lemma trimmed_iff s :
  trimmed s <-> left_trimmed s = true /\ Str.rstrip s = s.
Proof.
  unfold trimmed, Str.strip. split.
  - intros H. split.
    + rewrite <- H. apply rstrip_left_trimmed, lstrip_left_trimmed.
    + rewrite <- H at 1. rewrite rstrip_idem. exact H.
  - intros [Hl Hr]. rewrite (lstrip_fixed _ Hl). exact Hr.
Qed.

Lemma trimmed_empty : trimmed "".
Proof. reflexivity. Qed.

Lemma trimmed_strip s : trimmed (Str.strip s).
Proof. apply strip_idem. Qed.

Lemma blank_free_rstrip s : blank_free s = true -> Str.rstrip s = s.
Proof.
  unfold blank_free. induction s as [|c s IH]; [reflexivity|].
  cbn [Str.forallb Str.rstrip]. intros [Hc Hs]%andb_prop.
  apply negb_true_iff in Hc. rewrite Hc, andb_false_r, (IH Hs). reflexivity.
Qed.

Lemma blank_free_trimmed s : blank_free s = true -> trimmed s.
Proof.
  intros H. apply trimmed_iff. split; [|apply blank_free_rstrip, H].
  destruct s as [|c s]; [reflexivity|].
  unfold blank_free in H. cbn [Str.forallb] in H.
  apply andb_prop in H as [H _]. exact H.
Qed.

(** Joining trimmed, non-empty strings gives a trimmed string. *)
Lemma join_trimmed sep parts :
  Forall (fun p => trimmed p /\ Str.is_empty p = false) parts ->
  trimmed (Str.join sep parts) /\
  (parts <> [] -> Str.is_empty (Str.join sep parts) = false).
Proof.
  induction parts as [|p rest IH]; intros Hall.
  - split; [reflexivity|congruence].
  - inversion Hall as [|? ? [Hp Hne] Hrest]; subst.
    destruct rest as [|q rest'].
    + split; [exact Hp|]. intros _. exact Hne.
    + destruct (IH Hrest) as [Ht Hj]. specialize (Hj ltac:(discriminate)).
      change (Str.join sep (p :: q :: rest'))
        with (p +:+ sep +:+ Str.join sep (q :: rest')).
      set (J := Str.join sep (q :: rest')) in *.
      apply trimmed_iff in Hp as [Hpl Hpr]. apply trimmed_iff in Ht as [_ HJr].
      split.
      * apply trimmed_iff. split.
        -- rewrite left_trimmed_app by assumption. exact Hpl.
        -- rewrite rstrip_app, rstrip_app, HJr, Hj.
           rewrite is_empty_app, Hj, andb_false_r. reflexivity.
      * intros _. rewrite is_empty_app, Hne. reflexivity.
Qed.

(** The text of a tag, taken with [strip=True], is trimmed. *)
Lemma get_text_trimmed sep n : trimmed (get_text sep true n).
Proof.
  unfold get_text. apply join_trimmed.
  apply Forall_forall. intros s Hs.
  apply list_elem_of_In, filter_In in Hs as [Hin Hne].
  apply negb_true_iff in Hne. split; [|exact Hne].
  apply in_map_iff in Hin as (t & <- & _). apply trimmed_strip.
Qed.

Lemma blank_free_of_list l :
  blank_free (string_of_list_ascii l)
  = List.forallb (fun c => negb (Str.isspace c)) l.
Proof.
  unfold blank_free. induction l as [|c l IH]; simpl; [|rewrite IH]; reflexivity.
Qed.

Lemma forallb_rev {A} (p : A -> bool) l :
  List.forallb p (rev l) = List.forallb p l.
Proof.
  induction l as [|x l IH]; simpl; [reflexivity|].
  rewrite forallb_app, IH. simpl. rewrite andb_true_r. apply andb_comm.
Qed.

Lemma is_empty_of_list l :
  l <> [] -> Str.is_empty (string_of_list_ascii l) = false.
Proof. destruct l; [congruence|reflexivity]. Qed.

(** The words that [split] gives have no blank and are not empty. *)
Lemma split_aux_words s : forall cur,
  List.forallb (fun c => negb (Str.isspace c)) cur = true ->
  Forall (fun w => blank_free w = true /\ Str.is_empty w = false)
         (Str.split_aux cur s).
Proof.
  assert (forall cur (rest : list string),
            List.forallb (fun c => negb (Str.isspace c)) cur = true ->
            Forall (fun w => blank_free w = true /\ Str.is_empty w = false) rest ->
            Forall (fun w => blank_free w = true /\ Str.is_empty w = false)
              match cur with
              | [] => rest
              | _ => string_of_list_ascii (rev cur) :: rest
              end) as Hflush.
  { intros [|c cur] rest Hcur Hrest; [exact Hrest|].
    constructor; [|exact Hrest]. split.
    - rewrite blank_free_of_list, forallb_rev. exact Hcur.
    - apply is_empty_of_list. simpl. intros H.
      apply app_eq_nil in H as [_ H]. discriminate. }
  induction s as [|c s IH]; intros cur Hcur; cbn [Str.split_aux].
  - apply Hflush; [exact Hcur|constructor].
  - destruct (Str.isspace c) eqn:Hc.
    + apply Hflush; [exact Hcur|]. apply IH. reflexivity.
    + apply IH. simpl. rewrite Hc. exact Hcur.
Qed.

Lemma split_words s :
  Forall (fun w => trimmed w /\ Str.is_empty w = false) (Str.split s).
Proof.
  eapply Forall_impl; [apply (split_aux_words s []); reflexivity|].
  intros w [Hb Hne]. split; [apply blank_free_trimmed, Hb|exact Hne].
Qed.

Lemma driver_name_strip cols cells :
  trimmed (driver_name cols cells).1 /\ trimmed (driver_name cols cells).2 /\
  ((driver_name cols cells).1 = "" -> (driver_name cols cells).2 = "").
Proof.
  unfold driver_name.
  destruct (cells !! default 0%nat (cols !! "driver")) as [cell|];
    [|split; [reflexivity|]; split; reflexivity].
  set (texts := List.map (get_text "" true) (find_all ["span"; "p"; "div"] cell)).
  set (parts1 := List.filter (fun t => negb (Str.is_empty t)) texts).
  set (parts2 := List.filter _ parts1).
  assert (forall x, In x parts2 -> trimmed x /\ Str.is_empty x = false) as Hparts.
  { intros x Hx. apply filter_In in Hx as [Hx _].
    apply filter_In in Hx as [Hx Hne]. apply negb_true_iff in Hne.
    split; [|exact Hne].
    apply in_map_iff in Hx as (n & <- & _). apply get_text_trimmed. }
  pose proof (split_words (get_text " " true cell)) as Hwords.
  destruct parts2 as [|a [|b rest]].
  - destruct (Str.split _) as [|w [|w' ws]]; simpl.
    + split; [reflexivity|]. split; reflexivity.
    + inversion Hwords as [|? ? [Hw Hne] _]; subst.
      split; [exact Hw|]. split; [reflexivity|].
      intros ->. discriminate Hne.
    + inversion Hwords as [|? ? [Hw Hne] Hrest]; subst.
      split; [exact Hw|].
      split; [exact (proj1 (join_trimmed " " _ Hrest))|].
      intros ->. discriminate Hne.
  - destruct (Str.split _) as [|w [|w' ws]]; simpl.
    + split; [reflexivity|]. split; reflexivity.
    + inversion Hwords as [|? ? [Hw Hne] _]; subst.
      split; [exact Hw|]. split; [reflexivity|].
      intros ->. discriminate Hne.
    + inversion Hwords as [|? ? [Hw Hne] Hrest]; subst.
      split; [exact Hw|].
      split; [exact (proj1 (join_trimmed " " _ Hrest))|].
      intros ->. discriminate Hne.
  - simpl. destruct (Hparts a) as [Ha Hane]; [left; reflexivity|].
    destruct (Hparts b) as [Hb _]; [right; left; reflexivity|].
    split; [exact Ha|]. split; [exact Hb|]. intros ->. discriminate Hane.
Qed.

(** X15. The first and the last name that are read from a row never begin
    or end with a blank, and the last name is empty whenever the first
    is. *)
Theorem driver_name_trimmed (cols : gmap string nat) (cells : list node)
    (first_name last_name : string) :
  driver_name cols cells = (first_name, last_name) ->
  Str.strip first_name = first_name /\
  Str.strip last_name = last_name /\
  (first_name = "" -> last_name = "").
Proof.
  intros H. pose proof (driver_name_strip cols cells) as Hs.
  rewrite H in Hs. exact Hs.
Qed.

Lemma driver_name_trimmed_witness :
  Str.strip "Max" = "Max" /\ Str.strip "Verstappen" = "Verstappen" /\
  ("Max" = "" -> "Verstappen" = "").
Proof.
  apply (driver_name_trimmed (detect_columns (tr header_A))
           [td "1";
            Tag "td" [Tag "a" [Tag "span" [Text "Max"];
                               Tag "span" [Text " Verstappen "];
                               Tag "span" [Text "VER"]]];
            td "NED"]).
  vm_compute. reflexivity.
Defined.

Lemma lower_app a b : Str.lower (a +:+ b) = Str.lower a +:+ Str.lower b.
Proof.
  unfold Str.lower. induction a as [|c a IH]; [reflexivity|].
  change (String c a +:+ b) with (String c (a +:+ b)).
  cbn [Str.map]. rewrite IH. reflexivity.
Qed.

(** X16. The name of every record that [fetch_standings] returns is, up to
    letter case, the name of the roster entry that the record's number,
    team and car come from: lower-cased, it is the key of that entry with
    the blanks at its ends removed. The name itself has no blank at either
    end. *)
Theorem live_name_matches_entry (roster : list Roster.entry)
    (resp : response) (s : list Standing.t) :
  fetch_standings roster resp = Ok (Some s) ->
  Forall (fun r =>
            exists d, d ∈ roster /\
              Standing.number r = Roster.number d /\
              Standing.team r = Roster.team d /\
              Standing.car r = Roster.car d /\
              Str.lower (Standing.name r) = Str.strip (roster_key d) /\
              Str.strip (Standing.name r) = Standing.name r) s.
Proof.
  intros H. apply fetch_standings_rows in H
    as (header_row & tbody & rows' & _ & _ & _ & Hall).
  eapply Forall2_right; [exact Hall|]. cbv beta.
  intros row r Hy. apply row_yields_merged in Hy
    as (d & Hd & _ & _ & _ & _ & (Hn & Ht & Hc) & Hname & _).
  cbv zeta in Hd, Hname.
  destruct (driver_name_strip (detect_columns header_row)
              (find_all ["td"; "th"] row)) as (Hf & Hl & _).
  set (fn := (driver_name _ _).1) in *. set (ln := (driver_name _ _).2) in *.
  unfold lookup_driver in Hd. apply roster_by_name_some in Hd as [Hin Hk].
  unfold trimmed in Hf, Hl. rewrite Hf, Hl in Hk.
  exists d. repeat split; try assumption.
  - rewrite Hname, <- strip_lower, !lower_app, Hk. reflexivity.
  - rewrite Hname. apply strip_idem.
Qed.

Lemma live_name_matches_entry_witness :
  Forall (fun r =>
            exists d, d ∈ DRIVER_ROSTER /\
              Standing.number r = Roster.number d /\
              Standing.team r = Roster.team d /\
              Standing.car r = Roster.car d /\
              Str.lower (Standing.name r) = Str.strip (roster_key d) /\
              Str.strip (Standing.name r) = Standing.name r)
         [scenario_A_record; norris_record].
Proof.
  apply (live_name_matches_entry DRIVER_ROSTER page_two_rows).
  vm_compute. reflexivity.
Defined.

(** ** The column check *)

Lemma detect_columns_dom header_row f :
  f ∈ dom (detect_columns header_row) <->
  exists l, l ∈ header_labels header_row /\ selected_field l = Some f.
Proof.
  unfold detect_columns, header_labels.
  rewrite detect_from_dom, dom_empty_L. split.
  - intros [H|(th & Hin & Hsel)]; [apply elem_of_empty in H as []|].
    exists (label th). split; [|assumption].
    apply list_elem_of_fmap. eauto.
  - intros (l & Hin & Hsel).
    apply list_elem_of_fmap in Hin as (th & -> & Hin). eauto.
Qed.

(** X17. The column check of [fetch_standings] finds nothing missing
    exactly when, for each of pos, driver and pts, some header cell selects
    that field, that is, has a keyword of the field as the first keyword
    that its lower-cased text contains. *)
Theorem required_columns_detected (header_row : node) :
  missing (detect_columns header_row) = [] <->
  forall k, k ∈ ["pos"; "driver"; "pts"] ->
    exists l, l ∈ header_labels header_row /\ selected_field l = Some k.
Proof.
  rewrite missing_nil. unfold required.
  split; intros H k Hk; specialize (H k Hk).
  - apply detect_columns_dom, elem_of_dom. exact H.
  - apply elem_of_dom, detect_columns_dom. exact H.
Qed.
